(** * ProcessSessionManager: a shallow embedding and its properties

    The development follows [server/ProcessSessionManager.ts].  The manager
    keeps a JavaScript [Map] from session ids to [ManagedProcess] objects.
    Those objects are mutable and shared: the registry holds a reference, the
    closures installed on the child process by [createSession] hold another.
    We therefore model an object store ([heap]) addressed by locations and a
    registry that maps ids to locations, in insertion order as a JS [Map]
    does.

    What the platform decides (the clock, [randomUUID], the outcome of
    [spawn], [execSync], [process.kill] and [stdin.write]) is passed to each
    operation as an explicit argument.  [this.emit] appends to a log of
    notifications; the subscribers are not modelled and are assumed not to
    call back into the manager.  Node turns an ['error'] event nobody
    listens to into an exception.  The events of a child process are
    delivered here with such a listener present; inside [kill] and
    [interrupt], where the manager itself catches that exception, its absence
    is one of the outcomes of [process.kill].  Console output is not
    modelled.  The [async] methods contain no suspension point other than
    their own calls to each other and are modelled as atomic; a rejected
    promise is [Throw].  A JS number is an integer here, a JS string a Rocq
    string. *)

From Stdlib Require Import ZArith Lia Ascii String.
From stdpp Require Import base tactics option list strings pretty.

Open Scope string_scope.
Open Scope list_scope.

(** ** JavaScript strings and arrays *)

Definition LF : ascii := Ascii.ascii_of_nat 10.
Definition ETX : ascii := Ascii.ascii_of_nat 3.

(** [text.split('\n')]: never empty, the empty string gives one empty entry. *)
Fixpoint split_lines (text : string) : list string :=
  match text with
  | EmptyString => [EmptyString]
  | String c rest =>
      if Ascii.eqb c LF then EmptyString :: split_lines rest
      else match split_lines rest with
           | [] => [String c EmptyString]
           | line :: more => String c line :: more
           end
  end.

(** [arr.join('\n')] *)
Fixpoint join_lines (arr : list string) : string :=
  match arr with
  | [] => EmptyString
  | [line] => line
  | line :: more => line +:+ String LF (join_lines more)
  end.

(** [arr.slice(start)] for an integer [start]: a negative [start] counts from
    the end, and both directions are clamped to the array. *)
Definition slice_from {A} (start : Z) (arr : list A) : list A :=
  let len := Z.of_nat (length arr) in
  let k := if (start <? 0)%Z then Z.max (len + start) 0 else Z.min start len in
  drop (Z.to_nat k) arr.

(** ** Data model *)

Inductive Status := idle | working | waiting | offline.

Global Instance Status_eq_dec : EqDecision Status.
Proof. solve_decision. Defined.

Abbreviation loc := nat (only parsing).

(** The part of a Node [ChildProcess] that the manager reads or drives.
    [stdin] is [None] for a null stream and otherwise lists the chunks
    written so far.  [closure_id] is the constant [id] of the [createSession]
    call that spawned this process: the four listeners installed there close
    over it (and over the session object, which is the object holding this
    process). *)
Record ChildProcess := {
  pid : option Z;
  spawnfile : string;
  spawnargs : list string;
  killed : bool;
  exitCode : option Z;
  stdin : option (list string);
  stdout : bool;
  stderr : bool;
  closure_id : string
}.

Record ManagedProcess := {
  id : string;
  name : string;
  process : ChildProcess;
  status : Status;
  cwd : string;
  createdAt : Z;
  lastActivity : Z;
  outputBuffer : list string;
  claudeSessionId : option string;
  currentTool : option string
}.

Record Flags := {
  continue : option bool;
  skipPermissions : option bool;
  chrome : option bool
}.

Record CreateProcessOptions := {
  opt_name : option string;
  opt_cwd : option string;
  opt_flags : option Flags
}.

Inductive Event :=
  | EvOutput (sessionId : string) (data : string)
  | EvExit (sessionId : string) (code : option Z)
  | EvError (sessionId : string) (error : string)
  | EvStatusChange (sessionId : string) (st : Status).

Global Instance Event_eq_dec : EqDecision Event.
Proof. solve_decision. Defined.

Definition MAX_OUTPUT_BUFFER_LINES : nat := 500.

(** A JS [Map<string, ManagedProcess>]: keys in insertion order, values are
    references into the object store. *)
Definition SessionMap := list (string * loc).

Fixpoint map_get (k : string) (m : SessionMap) : option loc :=
  match m with
  | [] => None
  | (k', v) :: m' => if decide (k = k') then Some v else map_get k m'
  end.

(** [Map.set]: an existing key keeps its position, a new key goes last. *)
Fixpoint map_set (k : string) (v : loc) (m : SessionMap) : SessionMap :=
  match m with
  | [] => [(k, v)]
  | (k', v') :: m' =>
      if decide (k = k') then (k, v) :: m' else (k', v') :: map_set k v m'
  end.

Fixpoint map_delete (k : string) (m : SessionMap) : SessionMap :=
  match m with
  | [] => []
  | (k', v') :: m' =>
      if decide (k = k') then map_delete k m' else (k', v') :: map_delete k m'
  end.

Definition map_keys (m : SessionMap) : list string := m.*1.
Definition map_values (m : SessionMap) : list loc := m.*2.

Record State := {
  heap : list ManagedProcess;
  sessions : SessionMap;
  sessionCounter : nat;
  emitted : list Event
}.

Definition init : State :=
  {| heap := []; sessions := []; sessionCounter := 0; emitted := [] |}.

(** The result of a call: a value, or an exception (a rejected promise for
    the [async] methods). *)
Inductive Outcome (A : Type) :=
  | Return (a : A)
  | Throw (message : string).
Arguments Return {A} a.
Arguments Throw {A} message.

(** ** Record updates (assignments to one field of an object) *)

Definition set_id (v : string) (s : ManagedProcess) : ManagedProcess :=
  {| id := v; name := name s; process := process s; status := status s;
     cwd := cwd s; createdAt := createdAt s; lastActivity := lastActivity s;
     outputBuffer := outputBuffer s; claudeSessionId := claudeSessionId s;
     currentTool := currentTool s |}.

Definition set_status (v : Status) (s : ManagedProcess) : ManagedProcess :=
  {| id := id s; name := name s; process := process s; status := v;
     cwd := cwd s; createdAt := createdAt s; lastActivity := lastActivity s;
     outputBuffer := outputBuffer s; claudeSessionId := claudeSessionId s;
     currentTool := currentTool s |}.

Definition set_lastActivity (v : Z) (s : ManagedProcess) : ManagedProcess :=
  {| id := id s; name := name s; process := process s; status := status s;
     cwd := cwd s; createdAt := createdAt s; lastActivity := v;
     outputBuffer := outputBuffer s; claudeSessionId := claudeSessionId s;
     currentTool := currentTool s |}.

Definition set_outputBuffer (v : list string) (s : ManagedProcess) : ManagedProcess :=
  {| id := id s; name := name s; process := process s; status := status s;
     cwd := cwd s; createdAt := createdAt s; lastActivity := lastActivity s;
     outputBuffer := v; claudeSessionId := claudeSessionId s;
     currentTool := currentTool s |}.

Definition set_claudeSessionId (v : option string) (s : ManagedProcess) : ManagedProcess :=
  {| id := id s; name := name s; process := process s; status := status s;
     cwd := cwd s; createdAt := createdAt s; lastActivity := lastActivity s;
     outputBuffer := outputBuffer s; claudeSessionId := v;
     currentTool := currentTool s |}.

Definition set_process (v : ChildProcess) (s : ManagedProcess) : ManagedProcess :=
  {| id := id s; name := name s; process := v; status := status s;
     cwd := cwd s; createdAt := createdAt s; lastActivity := lastActivity s;
     outputBuffer := outputBuffer s; claudeSessionId := claudeSessionId s;
     currentTool := currentTool s |}.

Definition set_killed (v : bool) (p : ChildProcess) : ChildProcess :=
  {| pid := pid p; spawnfile := spawnfile p; spawnargs := spawnargs p;
     killed := v; exitCode := exitCode p; stdin := stdin p;
     stdout := stdout p; stderr := stderr p; closure_id := closure_id p |}.

Definition set_exitCode (v : option Z) (p : ChildProcess) : ChildProcess :=
  {| pid := pid p; spawnfile := spawnfile p; spawnargs := spawnargs p;
     killed := killed p; exitCode := v; stdin := stdin p;
     stdout := stdout p; stderr := stderr p; closure_id := closure_id p |}.

Definition set_stdin (v : option (list string)) (p : ChildProcess) : ChildProcess :=
  {| pid := pid p; spawnfile := spawnfile p; spawnargs := spawnargs p;
     killed := killed p; exitCode := exitCode p; stdin := v;
     stdout := stdout p; stderr := stderr p; closure_id := closure_id p |}.

(** State updates. [store l s st] writes the object at [l]. *)
Definition store (l : loc) (s : ManagedProcess) (st : State) : State :=
  {| heap := <[l := s]> (heap st); sessions := sessions st;
     sessionCounter := sessionCounter st; emitted := emitted st |}.

Definition with_sessions (m : SessionMap) (st : State) : State :=
  {| heap := heap st; sessions := m;
     sessionCounter := sessionCounter st; emitted := emitted st |}.

Definition emit (e : Event) (st : State) : State :=
  {| heap := heap st; sessions := sessions st;
     sessionCounter := sessionCounter st; emitted := emitted st ++ [e] |}.

(** [this.sessions.get(id)] followed by a dereference. *)
Definition deref (st : State) (l : loc) : option ManagedProcess := heap st !! l.

Definition lookup_session (st : State) (k : string) : option (loc * ManagedProcess) :=
  match map_get k (sessions st) with
  | Some l => match deref st l with Some s => Some (l, s) | None => None end
  | None => None
  end.

(** ** The private method [appendOutput] *)

Definition appendOutput (session : ManagedProcess) (text : string) : ManagedProcess :=
  let lines := split_lines text in
  let pushed := outputBuffer session ++ lines in
  if decide (MAX_OUTPUT_BUFFER_LINES < length pushed)
  then set_outputBuffer (slice_from (- Z.of_nat MAX_OUTPUT_BUFFER_LINES) pushed) session
  else set_outputBuffer pushed session.

(** ** What the platform decides *)

(** [process.kill(signal)].  [Delivered]: the signal was sent; Node sets
    [killed] and returns true.  [NotDelivered]: the process is gone (ESRCH);
    the call returns false.  [Refused]: the system refuses the signal
    (EPERM); Node emits ['error'] on the child process, which runs the
    listener of lines 153-157 inside the call, and then returns false.
    [RefusedUnheard]: the same refusal while nobody listens to the manager's
    own ['error'] event; the [this.emit('error', ...)] of that listener then
    throws, after the assignment to [status], and the exception leaves
    [process.kill].  [KillThrows]: the call throws at once, as Node does for
    a signal the platform does not know. *)
Inductive KillResult :=
  | Delivered
  | NotDelivered
  | Refused (error : string)
  | RefusedUnheard (error : string)
  | KillThrows.

(** The two ways [kill] terminates a process: [execSync('taskkill ...')]
    (which throws when it fails) and [process.kill('SIGTERM')]. *)
Record TerminationEnv := {
  taskkill_throws : bool;
  sigterm : KillResult
}.

Record SpawnResult := {
  sp_pid : option Z;
  sp_stdin : bool;
  sp_stdout : bool;
  sp_stderr : bool
}.

(** Everything [createSession] asks of the platform: the fresh identifier,
    the current directory, the output of [where]/[which] ([None] when
    [execSync] throws), which candidate paths answer [--version], what
    [spawn] gives back, and the two readings of the clock. *)
Record CreateEnv := {
  randomUUID : string;
  process_cwd : string;
  which_stdout : option string;
  version_runs : string -> bool;
  spawn : Outcome SpawnResult;
  now_createdAt : Z;
  now_lastActivity : Z
}.

(** JS truthiness of a string: only the empty string is falsy. *)
Definition truthy (s : string) : bool :=
  match s with EmptyString => false | _ => true end.

(** [a || b] for an optional string [a]. *)
Definition or_else (a : option string) (b : string) : string :=
  match a with
  | Some s => if truthy s then s else b
  | None => b
  end.

(** [String.prototype.trim], on the white space of the ASCII range. *)
Definition is_space (c : ascii) : bool :=
  let n := Ascii.nat_of_ascii c in
  (Nat.leb 9 n && Nat.leb n 13) || Nat.eqb n 32.

Fixpoint trim_start (s : string) : string :=
  match s with
  | String c rest => if is_space c then trim_start rest else s
  | EmptyString => EmptyString
  end.

Fixpoint trim_end (s : string) : string :=
  match s with
  | EmptyString => EmptyString
  | String c rest =>
      match trim_end rest with
      | EmptyString => if is_space c then EmptyString else String c EmptyString
      | rest' => String c rest'
      end
  end.

Definition trim (s : string) : string := trim_end (trim_start s).

Section Manager.

(** Constants of [shared/platform.js], and [path.join]. *)
Variable IS_WINDOWS : bool.
Variable HOME_DIR : string.
Variable join : list string -> string.

Definition getSessions (st : State) : list loc := map_values (sessions st).

Definition getSession (st : State) (k : string) : Outcome (option loc) :=
  Return (map_get k (sessions st)).

Definition possiblePaths : list string :=
  if IS_WINDOWS
  then [ "claude.exe";
         join [HOME_DIR; "AppData"; "Local"; "Programs"; "Claude"; "claude.exe"];
         join [HOME_DIR; "AppData"; "Local"; "Microsoft"; "WinGet"; "Links"; "claude.exe"];
         join [HOME_DIR; ".local"; "bin"; "claude.exe"] ]
  else [ "claude";
         join [HOME_DIR; ".local"; "bin"; "claude"];
         "/opt/homebrew/bin/claude";
         "/usr/local/bin/claude" ].

Definition findClaudePath (env : CreateEnv) : option string :=
  match which_stdout env with
  | Some result =>
      if IS_WINDOWS
      then head (split_lines (trim result))
      else Some (trim result)
  | None => List.find (version_runs env) possiblePaths
  end.

Definition launchArgs (flags : Flags) : list string :=
  (if decide (continue flags = Some false) then [] else ["-c"]) ++
  (if decide (skipPermissions flags = Some false) then []
   else ["--permission-mode=bypassPermissions"; "--dangerously-skip-permissions"]) ++
  (if decide (chrome flags = Some true) then ["--chrome"] else []).

Definition noFlags : Flags :=
  {| continue := None; skipPermissions := None; chrome := None |}.

Definition count_session (st : State) : State :=
  {| heap := heap st; sessions := sessions st;
     sessionCounter := S (sessionCounter st); emitted := emitted st |}.

Definition createSession (st : State) (options : CreateProcessOptions)
    (env : CreateEnv) : State * Outcome loc :=
  let st1 := count_session st in
  let id0 := randomUUID env in
  let name0 := or_else (opt_name options)
                 ("Claude " +:+ pretty (sessionCounter st1)) in
  let cwd0 := or_else (opt_cwd options) (process_cwd env) in
  let args := launchArgs (default noFlags (opt_flags options)) in
  match findClaudePath env with
  | None => (st1, Throw "Claude CLI not found. Please ensure it is installed and in PATH.")
  | Some claudePath =>
      if negb (truthy claudePath)
      then (st1, Throw "Claude CLI not found. Please ensure it is installed and in PATH.")
      else
        match spawn env with
        | Throw m => (st1, Throw m)
        | Return h =>
            let proc := {| pid := sp_pid h; spawnfile := claudePath;
                           spawnargs := args; killed := false;
                           exitCode := None;
                           stdin := if sp_stdin h then Some [] else None;
                           stdout := sp_stdout h; stderr := sp_stderr h;
                           closure_id := id0 |} in
            let session := {| id := id0; name := name0; process := proc;
                              status := idle; cwd := cwd0;
                              createdAt := now_createdAt env;
                              lastActivity := now_lastActivity env;
                              outputBuffer := [];
                              claudeSessionId := None;
                              currentTool := None |} in
            let l := length (heap st1) in
            ({| heap := heap st1 ++ [session];
                sessions := map_set id0 l (sessions st1);
                sessionCounter := sessionCounter st1;
                emitted := emitted st1 |}, Return l)
        end
  end.

(** The listeners that [createSession] installs on the process of the
    session object at [l].  They read the object through the captured
    reference and name it by the captured [id]. *)
Definition onStdoutData (l : loc) (text : string) (now : Z) (st : State) : State :=
  match deref st l with
  | Some session =>
      if stdout (process session)
      then emit (EvOutput (closure_id (process session)) text)
             (store l (set_lastActivity now (appendOutput session text)) st)
      else st
  | None => st
  end.

Definition onStderrData (l : loc) (text : string) (now : Z) (st : State) : State :=
  match deref st l with
  | Some session =>
      if stderr (process session)
      then store l (set_lastActivity now
                      (appendOutput session ("[stderr] " +:+ text))) st
      else st
  | None => st
  end.

Definition onExit (l : loc) (code : option Z) (st : State) : State :=
  match deref st l with
  | Some session =>
      let id0 := closure_id (process session) in
      emit (EvStatusChange id0 offline)
        (emit (EvExit id0 code) (store l (set_status offline session) st))
  | None => st
  end.

Definition onError (l : loc) (error : string) (st : State) : State :=
  match deref st l with
  | Some session =>
      let id0 := closure_id (process session) in
      emit (EvStatusChange id0 offline)
        (emit (EvError id0 error) (store l (set_status offline session) st))
  | None => st
  end.

(** The same listener when nobody listens to the manager's ['error'] event:
    line 154 runs, line 155 throws. *)
Definition onErrorUnheard (l : loc) (st : State) : State :=
  match deref st l with
  | Some session => store l (set_status offline session) st
  | None => st
  end.

(** [write_throws]: whether [stdin.write] throws.  A write to a stream that
    is closed, or whose process is gone, does not: Node reports that failure
    later, on the ['error'] event of the stream, and [write] returns.  The
    list in [stdin] is what has been passed to [write], delivered or not. *)
Definition sendInput (st : State) (k : string) (input : string) (now : Z)
    (write_throws : bool) : State * Outcome bool :=
  match lookup_session st k with
  | None => (st, Return false)
  | Some (l, session) =>
      match stdin (process session) with
      | None => (st, Return false)
      | Some written =>
          if write_throws then (st, Return false)
          else
            let proc := set_stdin (Some (written ++ [input +:+ String LF EmptyString]))
                          (process session) in
            (store l (set_lastActivity now (set_process proc session)) st,
             Return true)
      end
  end.

Definition interrupt (st : State) (k : string) (now : Z)
    (write_throws : bool) (sigint : KillResult) : State * Outcome bool :=
  match lookup_session st k with
  | None => (st, Return false)
  | Some (l, session) =>
      if IS_WINDOWS then
        match stdin (process session) with
        | Some written =>
            if write_throws then (st, Return false)
            else
              let proc := set_stdin (Some (written ++ [String ETX EmptyString]))
                            (process session) in
              (store l (set_lastActivity now (set_process proc session)) st,
               Return true)
        | None => (store l (set_lastActivity now session) st, Return true)
        end
      else
        match sigint with
        | Delivered =>
            (store l (set_process (set_killed true (process session)) session) st,
             Return true)
        | NotDelivered => (st, Return true)
        | Refused error => (onError l error st, Return true)
        | RefusedUnheard _ => (onErrorUnheard l st, Return false)
        | KillThrows => (st, Return false)
        end
  end.

Definition kill (st : State) (k : string) (env : TerminationEnv)
    : State * Outcome bool :=
  match lookup_session st k with
  | None => (st, Return false)
  | Some (l, session) =>
      if IS_WINDOWS then
        (* the inner try/catch swallows a failing taskkill *)
        let st1 := if taskkill_throws env then st else st in
        (with_sessions (map_delete k (sessions st1)) st1, Return true)
      else
        match sigterm env with
        | Delivered =>
            let st1 := store l (set_process (set_killed true (process session))
                                  session) st in
            (with_sessions (map_delete k (sessions st1)) st1, Return true)
        | NotDelivered =>
            (with_sessions (map_delete k (sessions st)) st, Return true)
        | Refused error =>
            let st1 := onError l error st in
            (with_sessions (map_delete k (sessions st1)) st1, Return true)
        | RefusedUnheard _ => (onErrorUnheard l st, Return false)
        | KillThrows => (st, Return false)
        end
  end.

(** [lines] is the optional argument; a number is modelled by an integer. *)
Definition getOutput (st : State) (k : string) (lines : option Z) : Outcome string :=
  match lookup_session st k with
  | None => Return EmptyString
  | Some (_, session) =>
      let output :=
        match lines with
        | Some n => if decide (n = 0%Z) then outputBuffer session
                    else slice_from (- n) (outputBuffer session)
        | None => outputBuffer session
        end in
      Return (join_lines output)
  end.

Definition isAlive (p : ChildProcess) : bool :=
  negb (killed p) && bool_decide (exitCode p = None).

(** The body of the loop of [checkHealth], for the session object at [l]. *)
Definition checkSession (st : State) (l : loc) : State :=
  match deref st l with
  | Some session =>
      if negb (isAlive (process session)) && bool_decide (status session <> offline)
      then emit (EvStatusChange (id session) offline)
             (store l (set_status offline session) st)
      else if isAlive (process session) && bool_decide (status session = offline)
      then emit (EvStatusChange (id session) idle)
             (store l (set_status idle session) st)
      else st
  | None => st
  end.

Definition checkHealth (st : State) : State * Outcome unit :=
  (foldl checkSession st (map_values (sessions st)), Return tt).

Definition updateStatus (st : State) (k : string) (status0 : Status)
    : State * Outcome unit :=
  match lookup_session st k with
  | Some (l, session) =>
      if decide (status session <> status0)
      then (emit (EvStatusChange k status0) (store l (set_status status0 session) st),
            Return tt)
      else (st, Return tt)
  | None => (st, Return tt)
  end.

Definition linkClaudeSession (st : State) (managedId claudeId : string)
    : State * Outcome unit :=
  match lookup_session st managedId with
  | Some (l, session) =>
      (store l (set_claudeSessionId (Some claudeId) session) st, Return tt)
  | None => (st, Return tt)
  end.

Definition findByClaudeSession (st : State) (claudeId : string) : Outcome (option loc) :=
  Return (List.find
            (fun l => match deref st l with
                      | Some session => bool_decide (claudeSessionId session = Some claudeId)
                      | None => false
                      end)
            (map_values (sessions st))).

Definition restart (st : State) (k : string) (tenv : TerminationEnv)
    (cenv : CreateEnv) : State * Outcome (option loc) :=
  match lookup_session st k with
  | None => (st, Return None)
  | Some (_, existing) =>
      let st1 := fst (kill st k tenv) in
      match createSession st1
              {| opt_name := Some (name existing); opt_cwd := Some (cwd existing);
                 opt_flags := None |} cenv with
      | (st2, Throw m) => (st2, Throw m)
      | (st2, Return l) =>
          match deref st2 l with
          | Some session =>
              let st3 := with_sessions (map_delete (id session) (sessions st2)) st2 in
              let st4 := store l (set_id k session) st3 in
              (with_sessions (map_set k l (sessions st4)) st4, Return (Some l))
          | None => (st2, Return (Some l))
          end
      end
  end.

(** [cleanup] visits the keys present when it starts; a [kill] only ever
    deletes the key it is given. *)
Definition cleanup (st : State) (tenv : string -> TerminationEnv) : State * Outcome unit :=
  (foldl (fun st0 k => fst (kill st0 k (tenv k))) st (map_keys (sessions st)),
   Return tt).

End Manager.

(** ** Runs of the manager *)

(** One input to the manager: a call of its interface, or an event of a
    child process delivered to the listeners of the session object at a
    location.  Before Node emits [exit] it records the exit code on the
    process handle.  [SpawnError] is the ['error'] event of a process that
    could not be started: Node records the negative error number as its exit
    code and emits ['error'] in place of [exit].  [ProcessError] is an
    ['error'] event that leaves the handle as it is, as the one of a refused
    signal. *)
Inductive Op :=
  | CallCreate (options : CreateProcessOptions) (env : CreateEnv)
  | CallSendInput (k input : string) (now : Z) (write_throws : bool)
  | CallInterrupt (k : string) (now : Z) (write_throws : bool) (sigint : KillResult)
  | CallKill (k : string) (env : TerminationEnv)
  | CallCheckHealth
  | CallUpdateStatus (k : string) (status0 : Status)
  | CallLinkClaudeSession (k claudeId : string)
  | CallRestart (k : string) (tenv : TerminationEnv) (cenv : CreateEnv)
  | CallCleanup (tenv : string -> TerminationEnv)
  | StdoutData (l : loc) (text : string) (now : Z)
  | StderrData (l : loc) (text : string) (now : Z)
  | ProcessExit (l : loc) (code : option Z)
  | ProcessError (l : loc) (error : string)
  | SpawnError (l : loc) (error : string) (code : Z).

Definition record_exit (l : loc) (code : option Z) (st : State) : State :=
  match deref st l with
  | Some session => store l (set_process (set_exitCode code (process session)) session) st
  | None => st
  end.

Section Runs.

Variable IS_WINDOWS : bool.
Variable HOME_DIR : string.
Variable join : list string -> string.

Definition step (st : State) (op : Op) : State :=
  match op with
  | CallCreate options env => fst (createSession IS_WINDOWS HOME_DIR join st options env)
  | CallSendInput k input now w => fst (sendInput st k input now w)
  | CallInterrupt k now w r => fst (interrupt IS_WINDOWS st k now w r)
  | CallKill k env => fst (kill IS_WINDOWS st k env)
  | CallCheckHealth => fst (checkHealth st)
  | CallUpdateStatus k s => fst (updateStatus st k s)
  | CallLinkClaudeSession k c => fst (linkClaudeSession st k c)
  | CallRestart k tenv cenv => fst (restart IS_WINDOWS HOME_DIR join st k tenv cenv)
  | CallCleanup tenv => fst (cleanup IS_WINDOWS st tenv)
  | StdoutData l text now => onStdoutData l text now st
  | StderrData l text now => onStderrData l text now st
  | ProcessExit l code => onExit l code (record_exit l code st)
  | ProcessError l error => onError l error st
  | SpawnError l error code => onError l error (record_exit l (Some code) st)
  end.

Definition run (st : State) (ops : list Op) : State := foldl step st ops.

End Runs.

(** ** Invariants *)

(** The registry is a map (no key twice) and every key leads to an object
    whose [id] field is that key. *)
Definition wf (st : State) : Prop :=
  NoDup (map_keys (sessions st)) /\
  forall k l, map_get k (sessions st) = Some l ->
    exists s, heap st !! l = Some s /\ id s = k.


(** The session a notification names, and the notifications of a log that
    name [k]. *)
Definition event_id (e : Event) : string :=
  match e with
  | EvOutput k _ | EvExit k _ | EvError k _ | EvStatusChange k _ => k
  end.

Definition notifications_for (k : string) (log : list Event) : list Event :=
  filter (fun e => event_id e = k) log.

(** What the body of the loop of [checkHealth] does to one object: the
    object after it, and what it notifies. *)
Definition reconcile (s : ManagedProcess) : ManagedProcess * list Event :=
  if negb (isAlive (process s)) && bool_decide (status s <> offline)
  then (set_status offline s, [EvStatusChange (id s) offline])
  else if isAlive (process s) && bool_decide (status s = offline)
  then (set_status idle s, [EvStatusChange (id s) idle])
  else (s, []).

(** The status of the session registered under [k], if any. *)
Definition status_of (st : State) (k : string) : option Status :=
  match lookup_session st k with
  | Some (_, s) => Some (status s)
  | None => None
  end.

(** ** Further definitions *)

(** Whether the object at [l] is linked to the Claude session [claudeId]:
    the test of the loop of [findByClaudeSession]. *)
Definition linked_to (st : State) (claudeId : string) (l : loc) : bool :=
  match deref st l with
  | Some session => bool_decide (claudeSessionId session = Some claudeId)
  | None => false
  end.

(** Whether the termination step of [kill] throws past its inner handler:
    only elsewhere than on Windows, when [process.kill] throws. *)
Definition kill_throws (W : bool) (env : TerminationEnv) : bool :=
  negb W && match sigterm env with
            | KillThrows | RefusedUnheard _ => true
            | _ => false
            end.

(** Whether the signal is refused, so that the ['error'] listener of the
    process starts, and whether that listener runs to its end. *)
Definition refused (r : KillResult) : bool :=
  match r with Refused _ | RefusedUnheard _ => true | _ => false end.

Definition refusal_heard (r : KillResult) : bool :=
  match r with Refused _ => true | _ => false end.

(** What a [kill] does to the object of a registered session, and what it
    notifies: the effects of [process.kill] and of the listener it may run. *)
Definition kill_object (W : bool) (env : TerminationEnv) (s : ManagedProcess)
    : ManagedProcess :=
  if W then s
  else match sigterm env with
       | Delivered => set_process (set_killed true (process s)) s
       | Refused _ | RefusedUnheard _ => set_status offline s
       | NotDelivered | KillThrows => s
       end.

Definition kill_log (W : bool) (env : TerminationEnv) (s : ManagedProcess)
    : list Event :=
  if W then []
  else match sigterm env with
       | Refused error => [EvError (closure_id (process s)) error;
                           EvStatusChange (closure_id (process s)) offline]
       | _ => []
       end.


(** *** [shared/platform.ts]: paths *)

Definition BACKSLASH : ascii := Ascii.ascii_of_nat 92.
Definition SLASH : ascii := Ascii.ascii_of_nat 47.

(** [p.replace(/\\/g, '/')] *)
Fixpoint forward_slashes (p : string) : string :=
  match p with
  | EmptyString => EmptyString
  | String c rest =>
      String (if Ascii.eqb c BACKSLASH then SLASH else c) (forward_slashes rest)
  end.

(** [p.startsWith(q)] *)
Definition startsWith (p q : string) : bool := String.prefix q p.

(** [p.slice(n)] for [0 <= n] *)
Fixpoint slice_string (n : nat) (p : string) : string :=
  match n, p with
  | 0, _ => p
  | S n', String _ rest => slice_string n' rest
  | S _, EmptyString => EmptyString
  end.

Definition shortenPath (HOME_DIR p : string) : string :=
  if startsWith p HOME_DIR
  then "~" +:+ forward_slashes (slice_string (String.length HOME_DIR) p)
  else forward_slashes p.

(** The character class [[A-Za-z]] and the folding of case that the [i]
    flag of a regular expression does on the ASCII range. *)
Definition is_letter (c : ascii) : bool :=
  let n := Ascii.nat_of_ascii c in
  (Nat.leb 65 n && Nat.leb n 90) || (Nat.leb 97 n && Nat.leb n 122).

Definition fold_case (c : ascii) : ascii :=
  let n := Ascii.nat_of_ascii c in
  if Nat.leb 65 n && Nat.leb n 90 then Ascii.ascii_of_nat (n + 32) else c.

Fixpoint fold_cases (p : string) : string :=
  match p with
  | EmptyString => EmptyString
  | String c rest => String (fold_case c) (fold_cases rest)
  end.

(** [/^[A-Za-z]:\/Users\//i.test(p)] *)
Definition drive_users (p : string) : bool :=
  match p with
  | String d rest => is_letter d && startsWith (fold_cases rest) ":/users/"
  | EmptyString => false
  end.

Definition isHomePath (p : string) : bool :=
  let normalized := forward_slashes p in
  if startsWith normalized "/home/" then true
  else if startsWith normalized "/Users/" then true
  else if drive_users normalized then true
  else if startsWith normalized "~/" then true
  else false.

(** ** Concrete inputs for the examples *)

Definition sample_join (parts : list string) : string := String.concat "/" parts.

Definition sample_spawn : SpawnResult :=
  {| sp_pid := Some 4242%Z; sp_stdin := true; sp_stdout := true; sp_stderr := true |}.

(** A platform on which the executable is found on the search path. *)
Definition sample_env (uuid : string) (now : Z) : CreateEnv :=
  {| randomUUID := uuid; process_cwd := "/work";
     which_stdout := Some ("/usr/bin/claude" +:+ String LF EmptyString);
     version_runs := fun _ => false;
     spawn := Return sample_spawn;
     now_createdAt := now; now_lastActivity := now |}.

(** A platform on which the executable is nowhere. *)
Definition missing_env (uuid : string) (now : Z) : CreateEnv :=
  {| randomUUID := uuid; process_cwd := "/work";
     which_stdout := None;
     version_runs := fun _ => false;
     spawn := Return sample_spawn;
     now_createdAt := now; now_lastActivity := now |}.

Definition no_options : CreateProcessOptions :=
  {| opt_name := None; opt_cwd := None; opt_flags := None |}.

Definition sample_tenv (r : KillResult) : TerminationEnv :=
  {| taskkill_throws := true; sigterm := r |}.

(** The manager after one successful [createSession], which minted "a". *)
Definition one_session (W : bool) : State :=
  fst (createSession W "/home/u" sample_join init no_options (sample_env "a" 1000)).

(** The object that call created. *)
Definition sample_session : ManagedProcess :=
  default
    {| id := "a"; name := "Claude 1";
       process := {| pid := None; spawnfile := "claude"; spawnargs := [];
                     killed := false; exitCode := None; stdin := None;
                     stdout := false; stderr := false; closure_id := "a" |};
       status := idle; cwd := "/work"; createdAt := 0; lastActivity := 0;
       outputBuffer := []; claudeSessionId := None; currentTool := None |}
    (heap (one_session false) !! 0).



(** ** The registry as a map *)

Lemma map_get_set_eq k v m : map_get k (map_set k v m) = Some v.
Proof.
  induction m as [|[k' v'] m IH]; simpl.
  - by rewrite decide_True.
  - destruct (decide (k = k')) as [->|Hne]; simpl.
    + by rewrite decide_True.
    + by rewrite decide_False.
Qed.

Lemma map_get_set_ne k k' v m : k' <> k -> map_get k' (map_set k v m) = map_get k' m.
Proof.
  intros Hne. induction m as [|[k0 v0] m IH]; simpl.
  - by rewrite decide_False.
  - destruct (decide (k = k0)) as [->|Hk]; simpl.
    + by rewrite !decide_False.
    + by rewrite IH.
Qed.

Lemma map_get_delete_eq k m : map_get k (map_delete k m) = None.
Proof.
  induction m as [|[k0 v0] m IH]; simpl; [done|].
  destruct (decide (k = k0)); simpl; [done|]. by rewrite decide_False.
Qed.

Lemma map_get_delete_ne k k' m : k' <> k -> map_get k' (map_delete k m) = map_get k' m.
Proof.
  intros Hne. induction m as [|[k0 v0] m IH]; simpl; [done|].
  destruct (decide (k = k0)) as [->|Hk]; simpl.
  - by rewrite decide_False.
  - by rewrite IH.
Qed.

Lemma map_get_delete_Some k k' l m :
  map_get k' (map_delete k m) = Some l -> k' <> k /\ map_get k' m = Some l.
Proof.
  intros H. destruct (decide (k' = k)) as [->|Hne].
  - by rewrite map_get_delete_eq in H.
  - by rewrite map_get_delete_ne in H.
Qed.

Lemma map_keys_delete k m : map_keys (map_delete k m) = filter (fun k' => k' <> k) (map_keys m).
Proof.
  unfold map_keys. induction m as [|[k0 v0] m IH]; csimpl; [done|].
  destruct (decide (k = k0)) as [->|Hk].
  - rewrite filter_cons_False; [done|]. by intros ?.
  - rewrite filter_cons_True; [|by intros ->]. csimpl. by rewrite IH.
Qed.

Lemma map_get_None_keys k m : map_get k m = None <-> k ∉ map_keys m.
Proof.
  unfold map_keys. induction m as [|[k0 v0] m IH]; csimpl.
  - split; [intros _; apply not_elem_of_nil | done].
  - rewrite not_elem_of_cons. destruct (decide (k = k0)) as [->|Hk].
    + split; [done | by intros [? _]].
    + rewrite IH. tauto.
Qed.

Lemma map_keys_set_absent k v m :
  map_get k m = None -> map_keys (map_set k v m) = map_keys m ++ [k].
Proof.
  unfold map_keys. induction m as [|[k0 v0] m IH]; csimpl; [done|].
  destruct (decide (k = k0)); [done|]. intros H. csimpl. by rewrite IH.
Qed.

Lemma map_keys_set_present k v m :
  map_get k m <> None -> map_keys (map_set k v m) = map_keys m.
Proof.
  unfold map_keys. induction m as [|[k0 v0] m IH]; csimpl; [done|].
  destruct (decide (k = k0)) as [->|Hk]; [done|]. intros H. csimpl. by rewrite IH.
Qed.

Lemma NoDup_map_set k v m : NoDup (map_keys m) -> NoDup (map_keys (map_set k v m)).
Proof.
  intros Hnd. destruct (map_get k m) as [l|] eqn:Hget.
  - rewrite map_keys_set_present; [done | by rewrite Hget].
  - rewrite map_keys_set_absent; [|done].
    apply NoDup_app. split; [done|]. split; [|apply NoDup_singleton].
    intros x Hx Hin. apply list_elem_of_singleton in Hin as ->.
    by apply map_get_None_keys in Hget.
Qed.

Lemma NoDup_map_delete k m : NoDup (map_keys m) -> NoDup (map_keys (map_delete k m)).
Proof. intros Hnd. rewrite map_keys_delete. by apply NoDup_filter. Qed.

Lemma map_get_elem_of k l m : map_get k m = Some l -> (k, l) ∈ m.
Proof.
  induction m as [|[k0 v0] m IH]; simpl; [done|].
  destruct (decide (k = k0)) as [->|Hk].
  - intros [= ->]. apply list_elem_of_here.
  - intros H. apply list_elem_of_further. by apply IH.
Qed.

Lemma elem_of_map_get k l m : NoDup (map_keys m) -> (k, l) ∈ m -> map_get k m = Some l.
Proof.
  unfold map_keys. induction m as [|[k0 v0] m IH]; simpl.
  - intros _ H. by apply elem_of_nil in H.
  - intros Hnd H. apply NoDup_cons in Hnd as [Hnot Hnd].
    apply elem_of_cons in H as [[= -> ->]|H].
    + by rewrite decide_True.
    + destruct (decide (k = k0)) as [->|Hk]; [|by apply IH].
      exfalso. apply Hnot. apply list_elem_of_fmap. by exists (k0, l).
Qed.

(** ** The output buffer *)

Lemma split_lines_nonempty text : split_lines text <> [].
Proof.
  destruct text as [|c rest]; simpl; [done|].
  destruct (Ascii.eqb c LF); [done|]. by destruct (split_lines rest).
Qed.

Lemma slice_from_last {A} (n : nat) (arr : list A) :
  0 < n -> slice_from (- Z.of_nat n) arr = drop (length arr - n) arr.
Proof.
  intros Hn. unfold slice_from.
  replace (- Z.of_nat n <? 0)%Z with true by (symmetry; apply Z.ltb_lt; lia).
  f_equal. lia.
Qed.

Lemma outputBuffer_appendOutput session text :
  outputBuffer (appendOutput session text) =
  drop (length (outputBuffer session ++ split_lines text) - MAX_OUTPUT_BUFFER_LINES)
       (outputBuffer session ++ split_lines text).
Proof.
  unfold appendOutput. case_decide as Hlen; simpl.
  - apply slice_from_last. unfold MAX_OUTPUT_BUFFER_LINES. lia.
  - replace (_ - _) with 0 by lia. done.
Qed.

Lemma appendOutput_length session text :
  length (outputBuffer (appendOutput session text)) <= MAX_OUTPUT_BUFFER_LINES.
Proof.
  rewrite outputBuffer_appendOutput, length_drop. lia.
Qed.

Lemma appendOutput_id session text : id (appendOutput session text) = id session.
Proof. unfold appendOutput. by case_decide. Qed.

Lemma appendOutput_status session text :
  status (appendOutput session text) = status session.
Proof. unfold appendOutput. by case_decide. Qed.



Lemma foldl_appendOutput_length chunks : forall session,
  length (outputBuffer session) <= MAX_OUTPUT_BUFFER_LINES ->
  length (outputBuffer (foldl appendOutput session chunks)) <= MAX_OUTPUT_BUFFER_LINES.
Proof.
  induction chunks as [|c chunks IH]; intros session Hlen; simpl; [done|].
  apply IH, appendOutput_length.
Qed.


(** ** Preservation of the invariants *)

Lemma lookup_session_Some st k l s :
  lookup_session st k = Some (l, s) <->
  map_get k (sessions st) = Some l /\ heap st !! l = Some s.
Proof.
  unfold lookup_session, deref.
  destruct (map_get k (sessions st)) as [l0|]; [|by split; [|intros []]].
  destruct (heap st !! l0) as [s0|] eqn:Hs; split.
  - by intros [= -> ->].
  - intros [[= ->] H]. congruence.
  - done.
  - intros [[= ->] H]. congruence.
Qed.

Lemma lookup_session_None st k :
  map_get k (sessions st) = None -> lookup_session st k = None.
Proof. unfold lookup_session. by intros ->. Qed.

Lemma lookup_session_wf st k l :
  wf st -> map_get k (sessions st) = Some l ->
  exists s, lookup_session st k = Some (l, s) /\ id s = k.
Proof.
  intros [_ Hreg] Hget. destruct (Hreg k l Hget) as (s & Hs & Hid).
  exists s. split; [|done]. by apply lookup_session_Some.
Qed.

Lemma wf_init : wf init.
Proof. split; [apply NoDup_nil_2 | done]. Qed.

Lemma wf_emit e st : wf st -> wf (emit e st).
Proof. done. Qed.

Lemma wf_store st l s s' :
  wf st -> heap st !! l = Some s -> id s' = id s -> wf (store l s' st).
Proof.
  intros [Hnd Hreg] Hl Hid. split; [done|]. intros k l0 Hget. simpl in *.
  destruct (Hreg k l0 Hget) as (s0 & Hs0 & Hk).
  destruct (decide (l0 = l)) as [->|Hne].
  - exists s'. rewrite list_lookup_insert_eq by (by eapply lookup_lt_Some).
    split; [done|]. congruence.
  - exists s0. by rewrite list_lookup_insert_ne.
Qed.

Lemma wf_store_unreferenced st l s' :
  wf st -> (forall k, map_get k (sessions st) <> Some l) -> wf (store l s' st).
Proof.
  intros [Hnd Hreg] Hfree. split; [done|]. intros k l0 Hget. simpl in *.
  destruct (Hreg k l0 Hget) as (s0 & Hs0 & Hk).
  exists s0. rewrite list_lookup_insert_ne; [done|]. intros ->. by eapply Hfree.
Qed.

Lemma wf_delete st k : wf st -> wf (with_sessions (map_delete k (sessions st)) st).
Proof.
  intros [Hnd Hreg]. split; simpl.
  - by apply NoDup_map_delete.
  - intros k' l Hget. apply map_get_delete_Some in Hget as [_ Hget]. eauto.
Qed.

Lemma wf_set st k l s :
  wf st -> heap st !! l = Some s -> id s = k ->
  wf (with_sessions (map_set k l (sessions st)) st).
Proof.
  intros [Hnd Hreg] Hl Hid. split; simpl.
  - by apply NoDup_map_set.
  - intros k' l' Hget. destruct (decide (k' = k)) as [->|Hne].
    + rewrite map_get_set_eq in Hget. injection Hget as <-. eauto.
    + rewrite map_get_set_ne in Hget by done. eauto.
Qed.



(** [createSession] either throws, having only counted the attempt, or
    allocates one object and registers it under the minted id. *)
Lemma createSession_cases W H J st options env :
  (exists m, createSession W H J st options env = (count_session st, Throw m)) \/
  (exists session,
     createSession W H J st options env =
       ({| heap := heap st ++ [session];
           sessions := map_set (randomUUID env) (length (heap st)) (sessions st);
           sessionCounter := S (sessionCounter st);
           emitted := emitted st |}, Return (length (heap st))) /\
     id session = randomUUID env /\
     closure_id (process session) = randomUUID env /\
     status session = idle /\
     outputBuffer session = [] /\
     name session = or_else (opt_name options)
                      ("Claude " +:+ pretty (S (sessionCounter st))) /\
     cwd session = or_else (opt_cwd options) (process_cwd env)).
Proof.
  unfold createSession.
  destruct (findClaudePath W H J env) as [p|]; [|left; eauto].
  destruct (truthy p); simpl; [|left; eauto].
  destruct (spawn env) as [h|m]; [|left; eauto].
  right. eexists. split; [reflexivity|]. simpl. done.
Qed.

Lemma wf_alloc st k session :
  wf st -> id session = k ->
  wf {| heap := heap st ++ [session];
        sessions := map_set k (length (heap st)) (sessions st);
        sessionCounter := S (sessionCounter st);
        emitted := emitted st |}.
Proof.
  intros [Hnd Hreg] Hid. split; simpl.
  - by apply NoDup_map_set.
  - intros k' l Hget. destruct (decide (k' = k)) as [->|Hne].
    + rewrite map_get_set_eq in Hget. injection Hget as <-.
      exists session. split; [|done]. by apply list_lookup_middle.
    + rewrite map_get_set_ne in Hget by done.
      destruct (Hreg k' l Hget) as (s & Hs & Hk). exists s. split; [|done].
      by apply lookup_app_l_Some.
Qed.

Lemma wf_createSession W H J st options env :
  wf st -> wf (fst (createSession W H J st options env)).
Proof.
  intros Hwf.
  destruct (createSession_cases W H J st options env)
    as [[m ->]|(session & -> & Hid & _)]; simpl; [done|].
  by apply wf_alloc.
Qed.



(** The proof steps shared by the operations: each one is a few stores of
    an updated copy of an object, deletions and notifications. *)
Ltac open_session st k l s Hget Hl :=
  let Hlk := fresh "Hlk" in
  destruct (lookup_session st k) as [[l s]|] eqn:Hlk;
  [apply lookup_session_Some in Hlk as [Hget Hl]|].

Ltac keep_wf :=
  repeat first
    [ assumption
    | apply wf_emit
    | apply wf_delete
    | eapply wf_store; [ | eassumption | reflexivity ] ].


Lemma wf_onError st l error : wf st -> wf (onError l error st).
Proof.
  intros Hwf. unfold onError, deref.
  destruct (heap st !! l) as [s|] eqn:Hl; [|exact Hwf].
  cbv zeta. keep_wf.
Qed.


Lemma wf_onErrorUnheard st l : wf st -> wf (onErrorUnheard l st).
Proof.
  intros Hwf. unfold onErrorUnheard, deref.
  destruct (heap st !! l) as [s|] eqn:Hl; [|exact Hwf].
  keep_wf.
Qed.


Lemma wf_sendInput st k input now w : wf st -> wf (fst (sendInput st k input now w)).
Proof.
  intros Hwf. unfold sendInput. open_session st k l s Hget Hl; [|done].
  destruct (stdin (process s)); [|done]. destruct w; simpl; keep_wf.
Qed.


Lemma wf_interrupt W st k now w r : wf st -> wf (fst (interrupt W st k now w r)).
Proof.
  intros Hwf. unfold interrupt. open_session st k l s Hget Hl; [|done].
  destruct W; [destruct (stdin (process s)); [destruct w|] | destruct r];
    unfold fst;
    first [ by apply wf_onError | by apply wf_onErrorUnheard | keep_wf ].
Qed.


Lemma wf_kill W st k env : wf st -> wf (fst (kill W st k env)).
Proof.
  intros Hwf. unfold kill. open_session st k l s Hget Hl; [|done].
  destruct W; [destruct (taskkill_throws env) | destruct (sigterm env)];
    cbv zeta; unfold fst;
    first [ by apply wf_onErrorUnheard | by apply wf_delete, wf_onError
          | keep_wf ].
Qed.


Lemma wf_updateStatus st k v : wf st -> wf (fst (updateStatus st k v)).
Proof.
  intros Hwf. unfold updateStatus. open_session st k l s Hget Hl; [|done].
  case_decide; simpl; keep_wf.
Qed.


Lemma wf_linkClaudeSession st k c : wf st -> wf (fst (linkClaudeSession st k c)).
Proof.
  intros Hwf. unfold linkClaudeSession. open_session st k l s Hget Hl; [|done].
  simpl; keep_wf.
Qed.


Lemma wf_checkSession st l : wf st -> wf (checkSession st l).
Proof.
  intros Hwf. unfold checkSession, deref.
  destruct (heap st !! l) as [s|] eqn:Hl; [|done].
  repeat case_match; keep_wf.
Qed.


Lemma wf_checkHealth st : wf st -> wf (fst (checkHealth st)).
Proof.
  unfold checkHealth. simpl. generalize (map_values (sessions st)).
  intros ls. revert st. induction ls as [|l ls IH]; intros st Hwf; simpl; [done|].
  by apply IH, wf_checkSession.
Qed.


Lemma wf_cleanup W st tenv : wf st -> wf (fst (cleanup W st tenv)).
Proof.
  unfold cleanup. simpl. generalize (map_keys (sessions st)).
  intros ks. revert st. induction ks as [|k ks IH]; intros st Hwf; simpl; [done|].
  by apply IH, wf_kill.
Qed.


Lemma wf_onStdoutData st l text now : wf st -> wf (onStdoutData l text now st).
Proof.
  intros Hwf. unfold onStdoutData, deref.
  destruct (heap st !! l) as [s|] eqn:Hl; [|exact Hwf].
  destruct (stdout (process s)); [|exact Hwf].
  apply wf_emit. eapply wf_store; [exact Hwf | exact Hl |].
  apply appendOutput_id.
Qed.

Lemma wf_onStderrData st l text now : wf st -> wf (onStderrData l text now st).
Proof.
  intros Hwf. unfold onStderrData, deref.
  destruct (heap st !! l) as [s|] eqn:Hl; [|exact Hwf].
  destruct (stderr (process s)); [|exact Hwf].
  eapply wf_store; [exact Hwf | exact Hl |].
  apply appendOutput_id.
Qed.

Lemma wf_onExit st l code : wf st -> wf (onExit l code st).
Proof.
  intros Hwf. unfold onExit, deref.
  destruct (heap st !! l) as [s|] eqn:Hl; [|exact Hwf].
  cbv zeta. keep_wf.
Qed.

Lemma wf_record_exit st l code : wf st -> wf (record_exit l code st).
Proof.
  intros Hwf. unfold record_exit, deref.
  destruct (heap st !! l) as [s|] eqn:Hl; [|exact Hwf].
  keep_wf.
Qed.





(** [restart] of a registered id: the old entry is killed, a session is
    created, and the new object is re-registered under the old id. *)
Lemma restart_cases W H J st k tenv cenv l0 existing :
  lookup_session st k = Some (l0, existing) ->
  let st1 := fst (kill W st k tenv) in
  let l := length (heap st1) in
  (exists m, restart W H J st k tenv cenv = (count_session st1, Throw m)) \/
  (exists session,
     restart W H J st k tenv cenv =
       ({| heap := <[l := set_id k session]> (heap st1 ++ [session]);
           sessions := map_set k l
                         (map_delete (randomUUID cenv)
                            (map_set (randomUUID cenv) l (sessions st1)));
           sessionCounter := S (sessionCounter st1);
           emitted := emitted st1 |}, Return (Some l)) /\
     id session = randomUUID cenv /\
     closure_id (process session) = randomUUID cenv /\
     status session = idle /\
     outputBuffer session = [] /\
     name session = or_else (Some (name existing))
                      ("Claude " +:+ pretty (S (sessionCounter st1))) /\
     cwd session = or_else (Some (cwd existing)) (process_cwd cenv)).
Proof.
  intros Hlk st1 l. unfold restart. rewrite Hlk. fold st1.
  destruct (createSession_cases W H J st1
              {| opt_name := Some (name existing); opt_cwd := Some (cwd existing);
                 opt_flags := None |} cenv)
    as [[m ->]|(session & -> & Hid & Hrest)]; [left; eauto|].
  right. exists session. split; [|by split].
  unfold deref. simpl. rewrite list_lookup_middle by done.
  unfold store, with_sessions. simpl. by rewrite Hid.
Qed.

Lemma restart_absent W H J st k tenv cenv :
  lookup_session st k = None -> restart W H J st k tenv cenv = (st, Return None).
Proof. intros Hlk. unfold restart. by rewrite Hlk. Qed.

Lemma wf_restart W H J st k tenv cenv :
  wf st -> wf (fst (restart W H J st k tenv cenv)).
Proof.
  intros Hwf. destruct (lookup_session st k) as [[l0 existing]|] eqn:Hlk;
    [|by rewrite restart_absent].
  pose proof (wf_kill W st k tenv Hwf) as Hwf1.
  destruct (restart_cases W H J st k tenv cenv l0 existing Hlk)
    as [[m ->]|(session & -> & Hid & _)]; [done|].
  set (st1 := fst (kill W st k tenv)) in *.
  set (l := length (heap st1)).
  pose proof (wf_alloc st1 (randomUUID cenv) session Hwf1 Hid) as Hwf2.
  apply (wf_delete _ (randomUUID cenv)) in Hwf2.
  apply (wf_store_unreferenced _ l (set_id k session)) in Hwf2.
  - apply (wf_set _ k l (set_id k session)) in Hwf2.
    + exact Hwf2.
    + simpl. apply list_lookup_insert_eq. rewrite length_app. simpl. lia.
    + reflexivity.
  - intros k' Hget. simpl in Hget.
    apply map_get_delete_Some in Hget as [Hne Hget].
    rewrite map_get_set_ne in Hget by done.
    destruct Hwf1 as [_ Hreg]. destruct (Hreg k' _ Hget) as (s & Hs & _).
    apply lookup_lt_Some in Hs. lia.
Qed.


Section RunInvariants.

Variable IS_WINDOWS : bool.
Variable HOME_DIR : string.
Variable join : list string -> string.

Lemma wf_step st op : wf st -> wf (step IS_WINDOWS HOME_DIR join st op).
Proof.
  intros Hwf. destruct op; simpl.
  - by apply wf_createSession.
  - by apply wf_sendInput.
  - by apply wf_interrupt.
  - by apply wf_kill.
  - by apply wf_checkHealth.
  - by apply wf_updateStatus.
  - by apply wf_linkClaudeSession.
  - by apply wf_restart.
  - by apply wf_cleanup.
  - by apply wf_onStdoutData.
  - by apply wf_onStderrData.
  - by apply wf_onExit, wf_record_exit.
  - by apply wf_onError.
  - by apply wf_onError, wf_record_exit.
Qed.


Lemma wf_run ops : forall st, wf st -> wf (run IS_WINDOWS HOME_DIR join st ops).
Proof.
  induction ops as [|op ops IH]; intros st Hwf; simpl; [done|].
  by apply IH, wf_step.
Qed.


End RunInvariants.

(** ** Locating and launching the executable *)

Lemma find_None {A} (f : A -> bool) (l : list A) :
  List.find f l = None <-> forall x, x ∈ l -> f x = false.
Proof.
  induction l as [|a l IH]; simpl.
  - split; [intros _ x Hx; by apply elem_of_nil in Hx | done].
  - destruct (f a) eqn:Hfa.
    + split; [done|]. intros Hall. rewrite Hall in Hfa; [done|apply list_elem_of_here].
    + rewrite IH. split.
      * intros Hall x Hx. apply elem_of_cons in Hx as [->|Hx]; [done|by apply Hall].
      * intros Hall x Hx. by apply Hall, list_elem_of_further.
Qed.

(** [findClaudePath] gives null exactly when the search path has no answer
    and no candidate location answers [--version]. *)
Lemma findClaudePath_None W H J env :
  findClaudePath W H J env = None <->
  which_stdout env = None /\
  forall p, p ∈ possiblePaths W H J -> version_runs env p = false.
Proof.
  unfold findClaudePath. destruct (which_stdout env) as [result|].
  - split; [|by intros [? _]]. destruct W; [|done].
    pose proof (split_lines_nonempty (trim result)) as Hne.
    by destruct (split_lines (trim result)).
  - rewrite find_None. split; [by split | by intros [_ ?]].
Qed.

(** When the executable is located and [spawn] returns, [createSession]
    returns. *)
Lemma createSession_returns W H J st options env p h :
  findClaudePath W H J env = Some p -> truthy p = true -> spawn env = Return h ->
  exists st', createSession W H J st options env = (st', Return (length (heap st))).
Proof.
  intros Hfind Htruthy Hspawn. unfold createSession.
  rewrite Hfind, Htruthy, Hspawn. simpl. eauto.
Qed.

(** ... and so does [restart] of a registered session. *)
Lemma restart_returns W H J st k tenv cenv l0 existing p h :
  lookup_session st k = Some (l0, existing) ->
  findClaudePath W H J cenv = Some p -> truthy p = true -> spawn cenv = Return h ->
  exists st' l, restart W H J st k tenv cenv = (st', Return (Some l)).
Proof.
  intros Hlk Hfind Htruthy Hspawn.
  destruct (restart_cases W H J st k tenv cenv l0 existing Hlk)
    as [[m Hthrow]|(session & Heq & _)]; [|eauto].
  exfalso. revert Hthrow. unfold restart. rewrite Hlk.
  destruct (createSession_returns W H J (fst (kill W st k tenv))
              {| opt_name := Some (name existing); opt_cwd := Some (cwd existing);
                 opt_flags := None |} cenv p h Hfind Htruthy Hspawn) as [st2 ->].
  by destruct (deref st2 _).
Qed.

(** ** Output arriving on the standard output of a session *)



(** ** Reading the buffer *)

(** C10. For a registered session, [getOutput(id, 0)] returns the whole
    buffer joined with newlines, which is also what [getOutput(id)] returns:
    a limit of zero lines is no limit, it does not select zero lines. *)
Theorem getOutput_zero_is_whole_buffer st k l session :
  lookup_session st k = Some (l, session) ->
  getOutput st k (Some 0%Z) = Return (join_lines (outputBuffer session)) /\
  getOutput st k (Some 0%Z) = getOutput st k None.
Proof.
  intros Hlk. unfold getOutput. rewrite Hlk. by rewrite decide_True.
Qed.

(** Witness for C10: a session holding three lines; a limit of one gives the
    last line, a limit of zero gives all three. *)
Lemma getOutput_zero_is_whole_buffer_witness :
  let st := onStdoutData 0 ("x" +:+ String LF "y" +:+ String LF "z") 5 (one_session true) in
  getOutput st "a" (Some 1%Z) = Return "z" /\
  getOutput st "a" (Some 0%Z) = Return ("x" +:+ String LF "y" +:+ String LF "z").
Proof.
  intros st. split; [reflexivity|].
  refine (eq_trans (proj1 (getOutput_zero_is_whole_buffer st "a" 0 _ eq_refl)) _).
  reflexivity.
Defined.

(** ** Unknown identifiers *)

(** C6. For an id that is not in the registry every operation returns its
    result for an absent session and none throws: [getSession] gives
    undefined, [sendInput], [interrupt] and [kill] give false, [getOutput]
    the empty string, [restart] null, and [updateStatus] and
    [linkClaudeSession] return having changed nothing.  The state, and so
    the registry, is the same after each of them, whatever the platform
    would have answered. *)
Theorem absent_id_is_reported_not_raised W H J st k :
  map_get k (sessions st) = None ->
  getSession st k = Return None /\
  (forall input now w, sendInput st k input now w = (st, Return false)) /\
  (forall now w r, interrupt W st k now w r = (st, Return false)) /\
  (forall env, kill W st k env = (st, Return false)) /\
  (forall lines, getOutput st k lines = Return EmptyString) /\
  (forall tenv cenv, restart W H J st k tenv cenv = (st, Return None)) /\
  (forall v, updateStatus st k v = (st, Return tt)) /\
  (forall c, linkClaudeSession st k c = (st, Return tt)).
Proof.
  intros Hget. pose proof (lookup_session_None st k Hget) as Hlk.
  unfold getSession, sendInput, interrupt, kill, getOutput, restart,
    updateStatus, linkClaudeSession.
  rewrite Hget, Hlk. repeat split.
Qed.

(** Witness for C6: the id "zz" in a manager that holds session "a". *)
Lemma absent_id_is_reported_not_raised_witness :
  let st := one_session true in
  map_get "zz" (sessions st) = None /\
  kill true st "zz" (sample_tenv Delivered) = (st, Return false) /\
  restart true "/home/u" sample_join st "zz" (sample_tenv Delivered)
    (sample_env "b" 7) = (st, Return None).
Proof.
  intros st.
  pose proof (absent_id_is_reported_not_raised true "/home/u" sample_join st "zz"
                eq_refl) as (_ & _ & _ & Hkill & _ & Hrestart & _).
  split; [reflexivity|]. split; [apply Hkill | apply Hrestart].
Defined.

(** ** Creation *)

(** C7. When the executable cannot be located ([findClaudePath] returns
    null, or a path that is the empty string), [createSession] throws and no
    record is created: the registry and the object store are those of
    before the call, and nothing is notified.  Only the counter that names
    sessions has moved. *)
Theorem createSession_not_found_registers_nothing W H J st options env :
  findClaudePath W H J env = None \/ findClaudePath W H J env = Some EmptyString ->
  let r := createSession W H J st options env in
  snd r = Throw "Claude CLI not found. Please ensure it is installed and in PATH." /\
  sessions (fst r) = sessions st /\
  heap (fst r) = heap st /\
  emitted (fst r) = emitted st /\
  getSessions (fst r) = getSessions st /\
  (forall k, getSession (fst r) k = getSession st k).
Proof.
  intros Hfind r. unfold r, createSession.
  destruct Hfind as [-> | ->]; simpl; done.
Qed.

(** Witness for C7: nothing on the search path and no candidate answers. *)
Lemma createSession_not_found_registers_nothing_witness :
  let st := one_session false in
  let r := createSession false "/home/u" sample_join st no_options (missing_env "b" 9) in
  findClaudePath false "/home/u" sample_join (missing_env "b" 9) = None /\
  sessions (fst r) = sessions st /\ heap (fst r) = heap st.
Proof.
  intros st r.
  pose proof (createSession_not_found_registers_nothing false "/home/u" sample_join
                st no_options (missing_env "b" 9) (or_introl eq_refl))
    as (_ & Hreg & Hheap & _).
  split; [reflexivity|]. split; [exact Hreg | exact Hheap].
Defined.

(** ** Input *)

(** What [sendInput] does.  On a registered session with an input stream,
    when the write does not throw, it performs one write of [text] followed
    by one line feed, sets [lastActivity] to the reading of the clock (so it
    advances whenever the clock has) and returns true; nothing else of the
    session changes.  When the session is absent, or its input stream is
    null, or the write throws, it returns false without throwing and the
    state, [lastActivity] included, is unchanged. *)
Lemma sendInput_writes_line_or_returns_false st k input now write_throws :
  (forall l session written,
     lookup_session st k = Some (l, session) ->
     stdin (process session) = Some written ->
     write_throws = false ->
     exists session',
       sendInput st k input now write_throws = (store l session' st, Return true) /\
       lookup_session (store l session' st) k = Some (l, session') /\
       stdin (process session') = Some (written ++ [input +:+ String LF EmptyString]) /\
       lastActivity session' = now /\
       ((lastActivity session < now)%Z -> (lastActivity session < lastActivity session')%Z) /\
       id session' = id session /\ status session' = status session /\
       outputBuffer session' = outputBuffer session) /\
  (lookup_session st k = None \/
   (exists l session, lookup_session st k = Some (l, session) /\
                      stdin (process session) = None) \/
   write_throws = true ->
   sendInput st k input now write_throws = (st, Return false)).
Proof.
  split.
  - intros l session written Hlk Hin ->.
    unfold sendInput. rewrite Hlk, Hin. eexists. split; [reflexivity|].
    apply lookup_session_Some in Hlk as [Hget Hl].
    split; [|by simpl].
    apply lookup_session_Some. split; [done|]. simpl.
    apply list_lookup_insert_eq. by eapply lookup_lt_Some.
  - intros Hfail. unfold sendInput.
    destruct (lookup_session st k) as [[l session]|] eqn:Hlk; [|done].
    destruct (stdin (process session)) as [written|] eqn:Hin; [|done].
    destruct Hfail as [?|[(l' & s' & Hlk' & Hnone) | -> ]]; [done| |done].
    congruence.
Qed.

(** Example: "hello" sent to session "a" at time 2000. *)
Lemma sendInput_writes_line_or_returns_false_example :
  let st := one_session true in
  (exists l session',
     sendInput st "a" "hello" 2000 false = (store l session' st, Return true) /\
     stdin (process session') = Some ["hello" +:+ String LF EmptyString] /\
     lastActivity session' = 2000%Z) /\
  sendInput st "a" "hello" 2000 true = (st, Return false).
Proof.
  intros st.
  pose proof (sendInput_writes_line_or_returns_false st "a" "hello" 2000 false)
    as [Hok _].
  pose proof (sendInput_writes_line_or_returns_false st "a" "hello" 2000 true)
    as [_ Hfail].
  split.
  - destruct (Hok 0 sample_session [] eq_refl eq_refl eq_refl)
      as (session' & Hcall & _ & Hin & Hact & _).
    exists 0, session'. by repeat split.
  - apply Hfail. right. right. reflexivity.
Qed.

(** C8, the code at the failing input.  Session "a" is created at time 1000
    and its process exits with code 1, which closes its input stream; the
    session is offline.  [sendInput("a", "hello")] at time 2000 passes the
    text to [write], which does not throw on a closed stream; so [sendInput]
    returns true and sets [lastActivity] to 2000, although nothing can be
    delivered: the handler written for a failed write is never reached. *)
Theorem sendInput_after_exit_returns_true :
  let st1 := run true "/home/u" sample_join init
               [CallCreate no_options (sample_env "a" 1000);
                ProcessExit 0 (Some 1%Z)] in
  let r := sendInput st1 "a" "hello" 2000 false in
  status_of st1 "a" = Some offline /\
  (exists session,
     lookup_session st1 "a" = Some (0, session) /\
     exitCode (process session) = Some 1%Z /\
     lastActivity session = 1000%Z) /\
  snd r = Return true /\
  (exists session',
     lookup_session (fst r) "a" = Some (0, session') /\
     lastActivity session' = 2000%Z /\
     status session' = offline) /\
  emitted (fst r) = emitted st1.
Proof.
  intros st1 r. split; [reflexivity|].
  split; [eexists; split; [reflexivity|]; split; reflexivity|].
  split; [reflexivity|].
  split; [eexists; split; [reflexivity|]; split; reflexivity|].
  reflexivity.
Qed.

(** ** Termination *)

Lemma wf_values_NoDup st : wf st -> NoDup (getSessions st).
Proof.
  intros [Hnd Hreg]. unfold getSessions, map_values.
  apply NoDup_fmap_2_strong; [|by eapply NoDup_fmap_1].
  intros [k1 l1] [k2 l2] H1 H2 Heq. simpl in Heq. subst l2.
  apply elem_of_map_get in H1; [|done]. apply elem_of_map_get in H2; [|done].
  destruct (Hreg _ _ H1) as (s1 & Hs1 & <-).
  destruct (Hreg _ _ H2) as (s2 & Hs2 & <-). congruence.
Qed.

Lemma wf_delete_values st k l :
  wf st -> map_get k (sessions st) = Some l ->
  l ∉ map_values (map_delete k (sessions st)).
Proof.
  intros Hwf Hget Hin. unfold map_values in Hin.
  apply list_elem_of_fmap in Hin as ([k' l'] & Heq & Hin). simpl in Heq. subst l'.
  apply elem_of_map_get in Hin; [|by apply NoDup_map_delete, Hwf].
  apply map_get_delete_Some in Hin as [Hne Hget'].
  destruct Hwf as [_ Hreg].
  destruct (Hreg _ _ Hget) as (s1 & Hs1 & <-).
  destruct (Hreg _ _ Hget') as (s2 & Hs2 & <-). congruence.
Qed.

Lemma filter_ext_in {A} (P1 P2 : A -> Prop)
    `{!forall x, Decision (P1 x), !forall x, Decision (P2 x)} (l : list A) :
  (forall x, x ∈ l -> (P1 x <-> P2 x)) -> filter P1 l = filter P2 l.
Proof.
  induction l as [|a l IH]; intros Hiff; [done|].
  assert (Htail : filter P1 l = filter P2 l).
  { apply IH. intros x Hx. apply Hiff. by apply list_elem_of_further. }
  pose proof (Hiff a (list_elem_of_here a l)) as Ha.
  destruct (decide (P1 a)) as [H1|H1].
  - rewrite !filter_cons_True by tauto. by rewrite Htail.
  - rewrite !filter_cons_False by tauto. done.
Qed.

Lemma filter_all {A} (P : A -> Prop) `{!forall x, Decision (P x)} (l : list A) :
  (forall x, x ∈ l -> P x) -> filter P l = l.
Proof.
  induction l as [|a l IH]; intros Hall; [done|].
  rewrite filter_cons_True by apply Hall, list_elem_of_here.
  rewrite IH; [done|]. intros x Hx. by apply Hall, list_elem_of_further.
Qed.

Lemma filter_none {A} (P : A -> Prop) `{!forall x, Decision (P x)} (l : list A) :
  (forall x, x ∈ l -> ~ P x) -> filter P l = [].
Proof.
  induction l as [|a l IH]; intros Hall; [done|].
  rewrite filter_cons_False by apply Hall, list_elem_of_here.
  apply IH. intros x Hx. by apply Hall, list_elem_of_further.
Qed.

Lemma map_delete_filter k (m : list (string * loc)) :
  map_delete k m = filter (fun p => p.1 <> k) m.
Proof.
  induction m as [|[k0 v0] m IH]; [done|]. cbn [map_delete].
  destruct (decide (k = k0)) as [->|Hne].
  - rewrite filter_cons_False by (simpl; by intros ?). done.
  - rewrite filter_cons_True by (simpl; by intros ->). by rewrite IH.
Qed.

Lemma state_eta st :
  {| heap := heap st; sessions := sessions st;
     sessionCounter := sessionCounter st; emitted := emitted st |} = st.
Proof. by destruct st. Qed.

(** [kill] of a registered session, in one equation. *)
Lemma kill_registered W st k env l s :
  lookup_session st k = Some (l, s) ->
  kill W st k env =
    ({| heap := <[l := kill_object W env s]> (heap st);
        sessions := if kill_throws W env then sessions st
                    else map_delete k (sessions st);
        sessionCounter := sessionCounter st;
        emitted := emitted st ++ kill_log W env s |},
     Return (negb (kill_throws W env))).
Proof.
  intros Hlk. pose proof Hlk as [Hget Hl]%lookup_session_Some.
  unfold kill, kill_throws, kill_object, kill_log. rewrite Hlk.
  destruct W; cbn [negb andb].
  - rewrite list_insert_id, app_nil_r by done.
    by destruct (taskkill_throws env).
  - destruct (sigterm env) as [| |e|e|]; cbv zeta;
      unfold onError, onErrorUnheard, deref; rewrite ?Hl;
      unfold with_sessions, emit, store; cbn [heap sessions sessionCounter emitted];
      rewrite ?list_insert_id, ?app_nil_r, <- ?(assoc_L (++)) by done;
      first [ done | by rewrite state_eta ].
Qed.

Lemma kill_object_keeps W env s :
  id (kill_object W env s) = id s /\
  name (kill_object W env s) = name s /\
  cwd (kill_object W env s) = cwd s /\
  outputBuffer (kill_object W env s) = outputBuffer s /\
  closure_id (process (kill_object W env s)) = closure_id (process s) /\
  exitCode (process (kill_object W env s)) = exitCode (process s).
Proof.
  unfold kill_object. destruct W; [done|]. by destruct (sigterm env).
Qed.

(** What [kill] does to the registry, on a well-formed state. *)
Lemma kill_sessions W st k env :
  wf st ->
  sessions (fst (kill W st k env)) =
  if kill_throws W env then sessions st else map_delete k (sessions st).
Proof.
  intros Hwf.
  destruct (map_get k (sessions st)) as [l|] eqn:Hget.
  - destruct (lookup_session_wf st k l Hwf Hget) as (s & Hlk & _).
    by rewrite (kill_registered W st k env l s Hlk).
  - unfold kill. rewrite (lookup_session_None st k Hget). cbn [fst].
    assert (Hid : map_delete k (sessions st) = sessions st).
    { rewrite map_delete_filter. apply filter_all. intros [k' l'] Hin. simpl.
      intros ->. apply map_get_None_keys in Hget. apply Hget.
      unfold map_keys. apply list_elem_of_fmap. by exists (k, l'). }
    rewrite Hid. by destruct (kill_throws W env).
Qed.

Lemma kill_sessions_other W st k env k' :
  k' <> k -> map_get k' (sessions (fst (kill W st k env))) = map_get k' (sessions st).
Proof.
  intros Hne. destruct (lookup_session st k) as [[l s]|] eqn:Hlk.
  - rewrite (kill_registered W st k env l s Hlk). cbn [fst sessions].
    destruct (kill_throws W env); [done|]. by apply map_get_delete_ne.
  - unfold kill. by rewrite Hlk.
Qed.

(** A [kill] notifies nothing, unless a refused signal runs the ['error']
    listener. *)
Lemma kill_emitted W st k env :
  W = true \/ refusal_heard (sigterm env) = false ->
  emitted (fst (kill W st k env)) = emitted st.
Proof.
  intros Hquiet. destruct (lookup_session st k) as [[l s]|] eqn:Hlk.
  - rewrite (kill_registered W st k env l s Hlk). cbn [fst emitted].
    unfold kill_log. destruct W; [by rewrite app_nil_r|].
    destruct Hquiet as [?|Hq]; [done|].
    destruct (sigterm env); try done; by rewrite app_nil_r.
  - unfold kill. by rewrite Hlk.
Qed.

Lemma kill_heap_length W st k env :
  length (heap (fst (kill W st k env))) = length (heap st).
Proof.
  destruct (lookup_session st k) as [[l s]|] eqn:Hlk.
  - rewrite (kill_registered W st k env l s Hlk). cbn [fst heap].
    by rewrite length_insert.
  - unfold kill. by rewrite Hlk.
Qed.

Lemma kill_sessionCounter W st k env :
  sessionCounter (fst (kill W st k env)) = sessionCounter st.
Proof.
  destruct (lookup_session st k) as [[l s]|] eqn:Hlk.
  - by rewrite (kill_registered W st k env l s Hlk).
  - unfold kill. by rewrite Hlk.
Qed.

(** C4, as the code has it.  For a registered id, [kill(id)] removes the
    record from the registry and returns true whenever the termination call
    returns or fails inside the handler written for it: on Windows whether
    or not [taskkill] fails; elsewhere when [process.kill('SIGTERM')]
    returns, the signal delivered, not delivered, or refused with the error
    reported on the ['error'] event.  The other entries stay.  When
    [process.kill] throws, [kill] returns false and the record stays
    registered; this is what happens, elsewhere than on Windows, when the
    signal is refused and nobody listens to the manager's ['error'] event
    (the session has then been set offline), or when the platform does not
    know the signal.  For an id that is not registered [kill] returns false
    and the state is unchanged. *)
Theorem kill_removes_unless_signal_throws W st k env :
  (forall l session,
     lookup_session st k = Some (l, session) ->
     (W = true \/ sigterm env = Delivered \/ sigterm env = NotDelivered \/
      exists error, sigterm env = Refused error) ->
     let r := kill W st k env in
     snd r = Return true /\
     getSession (fst r) k = Return None /\
     (k ∉ map_keys (sessions (fst r))) /\
     (wf st -> l ∉ getSessions (fst r)) /\
     (forall k', k' <> k ->
        map_get k' (sessions (fst r)) = map_get k' (sessions st))) /\
  (forall l session,
     lookup_session st k = Some (l, session) ->
     W = false ->
     (sigterm env = KillThrows -> kill W st k env = (st, Return false)) /\
     (forall error, sigterm env = RefusedUnheard error ->
        kill W st k env = (store l (set_status offline session) st, Return false) /\
        getSession (store l (set_status offline session) st) k = Return (Some l))) /\
  (map_get k (sessions st) = None -> kill W st k env = (st, Return false)).
Proof.
  split; [|split].
  - intros l session Hlk Hcase r.
    assert (Hthrows : kill_throws W env = false).
    { unfold kill_throws. destruct W; [done|].
      destruct Hcase as [?|[->|[->|[e ->]]]]; done. }
    assert (Hr : snd r = Return true /\
                 sessions (fst r) = map_delete k (sessions st)).
    { unfold r. rewrite (kill_registered W st k env l session Hlk).
      by rewrite Hthrows. }
    destruct Hr as [Hret Hsess]. unfold getSession, getSessions. rewrite Hsess.
    apply lookup_session_Some in Hlk as [Hget Hl].
    split; [done|]. split; [by rewrite map_get_delete_eq|].
    split; [apply map_get_None_keys, map_get_delete_eq|].
    split; [intros Hwf; by apply wf_delete_values|].
    intros k' Hne. by apply map_get_delete_ne.
  - intros l session Hlk ->. split.
    + intros Hthrow. unfold kill. by rewrite Hlk, Hthrow.
    + intros e He. apply lookup_session_Some in Hlk as Hlk'. destruct Hlk' as [Hget Hl].
      unfold kill. rewrite Hlk, He. unfold onErrorUnheard, deref. rewrite Hl.
      split; [done|]. unfold getSession. simpl. by rewrite Hget.
  - intros Hget. unfold kill. by rewrite (lookup_session_None st k Hget).
Qed.

(** Witness for C4 (amended): on Windows with a failing [taskkill], and
    elsewhere with a refused signal whose error is heard. *)
Lemma kill_removes_unless_signal_throws_witness :
  (let r := kill true (one_session true) "a" (sample_tenv KillThrows) in
   snd r = Return true /\ getSession (fst r) "a" = Return None) /\
  (let r := kill false (one_session false) "a" (sample_tenv (Refused "EPERM")) in
   snd r = Return true /\ getSession (fst r) "a" = Return None).
Proof.
  split.
  - intros r.
    pose proof (kill_removes_unless_signal_throws true (one_session true) "a"
                  (sample_tenv KillThrows)) as [Hreg _].
    destruct (Hreg 0 sample_session eq_refl (or_introl eq_refl))
      as (Hret & Hgone & _).
    split; [exact Hret | exact Hgone].
  - intros r.
    pose proof (kill_removes_unless_signal_throws false (one_session false) "a"
                  (sample_tenv (Refused "EPERM"))) as [Hreg _].
    destruct (Hreg 0 sample_session eq_refl
                (or_intror (or_intror (or_intror (ex_intro _ "EPERM" eq_refl)))))
      as (Hret & Hgone & _).
    split; [exact Hret | exact Hgone].
Defined.

(** Counterexample to C4 as stated: not on Windows, nobody listens to the
    manager's ['error'] event and the system refuses the signal.  The id "a"
    is registered and the termination call reports an error, yet [kill]
    returns false and "a" is still registered afterwards, set offline, with
    nothing notified. *)
Lemma kill_refused_unheard_counterexample :
  let st := one_session false in
  let r := kill false st "a" (sample_tenv (RefusedUnheard "EPERM")) in
  map_get "a" (sessions st) = Some 0 /\
  snd r = Return false /\
  map_get "a" (sessions (fst r)) = Some 0 /\
  status_of (fst r) "a" = Some offline /\
  emitted (fst r) = [] /\
  ~ (snd r = Return true /\ map_get "a" (sessions (fst r)) = None).
Proof.
  intros st r. repeat (split; [reflexivity|]).
  intros [Hret _]. vm_compute in Hret. discriminate Hret.
Qed.

(** ** Restarting a session *)

(** C1. [restart(id)] on a registered session keeps the identifier.  When
    the call returns, it returns a new object (one that was not in the
    store before, idle and with an empty buffer); [getSession(id)] gives
    that object and its [id] field is [id]; the entry under the identifier
    minted by the inner [createSession] is gone; every other registered
    session has another object and another [id]; and the sessions under
    other identifiers than these two are the ones registered before. *)
Theorem restart_preserves_id W H J st k tenv cenv l0 st' r :
  wf st ->
  map_get k (sessions st) = Some l0 ->
  restart W H J st k tenv cenv = (st', Return r) ->
  exists l session,
    r = Some l /\
    getSession st' k = Return (Some l) /\
    heap st' !! l = Some session /\
    id session = k /\
    heap st !! l = None /\
    status session = idle /\
    outputBuffer session = [] /\
    (randomUUID cenv <> k -> getSession st' (randomUUID cenv) = Return None) /\
    (forall k' l' session',
       k' <> k -> map_get k' (sessions st') = Some l' ->
       heap st' !! l' = Some session' -> l' <> l /\ id session' <> k) /\
    (forall k', k' <> k -> k' <> randomUUID cenv ->
       map_get k' (sessions st') = map_get k' (sessions st)).
Proof.
  intros Hwf Hget Hcall.
  destruct (lookup_session_wf st k l0 Hwf Hget) as (existing & Hlk & _).
  pose proof (wf_restart W H J st k tenv cenv Hwf) as Hwf'.
  destruct (restart_cases W H J st k tenv cenv l0 existing Hlk)
    as [[m Hthrow]|(session & Heq & Hid & _ & Hstatus & Hbuf & _)];
    [congruence|].
  rewrite Heq in Hcall, Hwf'. clear Heq. injection Hcall as <- <-.
  set (st1 := fst (kill W st k tenv)) in *.
  assert (Hlen : length (heap st1) = length (heap st))
    by apply kill_heap_length.
  assert (Hsess1 : forall k', k' <> k ->
            map_get k' (sessions st1) = map_get k' (sessions st)).
  { intros k' Hne. by apply kill_sessions_other. }
  set (l := length (heap st1)) in *.
  exists l, (set_id k session). unfold getSession. simpl.
  assert (Hnew : <[l:=set_id k session]> (heap st1 ++ [session]) !! l
                 = Some (set_id k session)).
  { apply list_lookup_insert_eq. rewrite length_app. simpl. lia. }
  split; [done|]. split; [by rewrite map_get_set_eq|]. split; [done|].
  split; [done|]. split; [apply lookup_ge_None_2; lia|].
  split; [done|]. split; [done|]. split; [|split].
  - intros Hne. rewrite map_get_set_ne by done. by rewrite map_get_delete_eq.
  - intros k' l' session' Hne Hget' Hl'.
    destruct Hwf' as [_ Hreg]. simpl in Hreg.
    destruct (Hreg k' l' Hget') as (s2 & Hs2 & Hid2).
    assert (s2 = session') as -> by congruence.
    split; [|congruence].
    intros ->. pose proof (eq_trans (eq_sym Hl') Hnew) as Heq.
    injection Heq as ->. simpl in Hid2. congruence.
  - intros k' Hne Hne'. rewrite map_get_set_ne by done.
    rewrite map_get_delete_ne by done. rewrite map_get_set_ne by done.
    by apply Hsess1.
Qed.

(** Witness for C1: session "a" restarted, the inner creation mints "b". *)
Lemma restart_preserves_id_witness :
  let st := one_session true in
  exists st' l session,
    restart true "/home/u" sample_join st "a" (sample_tenv Delivered)
      (sample_env "b" 2000) = (st', Return (Some l)) /\
    getSession st' "a" = Return (Some l) /\
    heap st' !! l = Some session /\ id session = "a" /\
    getSession st' "b" = Return None.
Proof.
  intros st.
  destruct (restart_preserves_id true "/home/u" sample_join st "a"
              (sample_tenv Delivered) (sample_env "b" 2000) 0 _ _
              (wf_run true "/home/u" sample_join
                 [CallCreate no_options (sample_env "a" 1000)] init wf_init)
              eq_refl eq_refl)
    as (l & session & Hr & Hget & Hl & Hid & _ & _ & _ & Hminted & _).
  injection Hr as <-.
  eexists _, _, session. split; [reflexivity|].
  split; [exact Hget|]. split; [exact Hl|]. split; [exact Hid|].
  apply Hminted. discriminate.
Defined.

(** ** Health reconciliation *)

Lemma isAlive_false p : isAlive p = false <-> killed p = true \/ exitCode p <> None.
Proof.
  unfold isAlive. destruct (killed p); simpl.
  - split; [by left | done].
  - rewrite bool_decide_eq_false. split; [by right | by intros [?|?]].
Qed.

Lemma checkSession_reconcile st l s :
  heap st !! l = Some s ->
  checkSession st l =
    {| heap := <[l := (reconcile s).1]> (heap st); sessions := sessions st;
       sessionCounter := sessionCounter st;
       emitted := emitted st ++ (reconcile s).2 |}.
Proof.
  intros Hl. unfold checkSession, reconcile, deref. rewrite Hl.
  destruct (negb (isAlive (process s)) && bool_decide (status s <> offline));
    [done|].
  destruct (isAlive (process s) && bool_decide (status s = offline)); [done|].
  simpl. rewrite list_insert_id by done. rewrite app_nil_r. by destruct st.
Qed.

(** The loop over a list of distinct objects reconciles each of them from
    its state before the loop, and notifies in the order of the list. *)
Lemma checkHealth_loop ls : forall st,
  NoDup ls -> (forall l, l ∈ ls -> is_Some (heap st !! l)) ->
  let st' := foldl checkSession st ls in
  sessions st' = sessions st /\
  (forall l s, heap st !! l = Some s ->
     heap st' !! l = Some (if decide (l ∈ ls) then (reconcile s).1 else s)) /\
  emitted st' = emitted st ++
    concat ((fun l => from_option (fun s => (reconcile s).2) [] (heap st !! l)) <$> ls).
Proof.
  induction ls as [|l ls IH]; intros st Hnd Hin; cbv zeta.
  - csimpl. split; [done|]. split; [done|]. by rewrite app_nil_r.
  - rewrite fmap_cons. cbn [foldl concat]. apply NoDup_cons in Hnd as [Hnot Hnd].
    destruct (Hin l) as [s Hl]; [apply list_elem_of_here|].
    rewrite (checkSession_reconcile st l s Hl).
    set (st1 := {| heap := <[l:=(reconcile s).1]> (heap st) |}).
    assert (Hother : forall l', l' <> l -> heap st1 !! l' = heap st !! l').
    { intros l' Hne. simpl. by apply list_lookup_insert_ne. }
    destruct (IH st1 Hnd) as (Hsess & Hheap & Hlog).
    { intros l' Hl'. rewrite Hother; [apply Hin; by apply list_elem_of_further|].
      by intros ->. }
    split; [by rewrite Hsess|]. split.
    + intros l' s' Hl'. destruct (decide (l' = l)) as [->|Hne].
      * assert (s' = s) as -> by congruence.
        rewrite decide_True by apply list_elem_of_here.
        rewrite (Hheap l (reconcile s).1).
        -- by rewrite decide_False.
        -- simpl. apply list_lookup_insert_eq. by eapply lookup_lt_Some.
      * rewrite (Hheap l' s') by (by rewrite Hother).
        f_equal. destruct (decide (l' ∈ ls)) as [Hels|Hels].
        -- by rewrite decide_True by (by apply list_elem_of_further).
        -- rewrite decide_False; [done|]. rewrite elem_of_cons. by intros [?|?].
    + rewrite Hlog. simpl. rewrite Hl. simpl. rewrite <- (assoc_L (++)).
      do 3 f_equal. apply list_fmap_ext. intros i l' Hi.
      rewrite list_lookup_insert_ne; [done|]. intros <-. apply Hnot.
      by eapply list_elem_of_lookup_2.
Qed.

Lemma filter_concat_unique {A B} `{EqDecision A} (P : B -> Prop)
    `{!forall x, Decision (P x)}
    (f : A -> list B) (a : A) (ls : list A) :
  NoDup ls -> a ∈ ls ->
  (forall x, x ∈ ls -> x <> a -> filter P (f x) = []) ->
  filter P (concat (f <$> ls)) = filter P (f a).
Proof.
  induction ls as [|x ls IH]; intros Hnd Hin Hothers; csimpl.
  - by apply elem_of_nil in Hin.
  - apply NoDup_cons in Hnd as [Hnot Hnd]. rewrite filter_app.
    destruct (decide (x = a)) as [->|Hne].
    + replace (filter P (concat (f <$> ls))) with (@nil B); [by rewrite app_nil_r|].
      symmetry. clear IH Hin Hnd. induction ls as [|y ls IH]; csimpl; [done|].
      rewrite filter_app, <- IH.
      * rewrite Hothers; [done|apply list_elem_of_further, list_elem_of_here|].
        intros ->. apply Hnot, list_elem_of_here.
      * intros Hin. apply Hnot. by apply list_elem_of_further.
      * intros z Hz Hza. apply elem_of_cons in Hz as [->|Hz].
        -- apply Hothers; [apply list_elem_of_here|done].
        -- apply Hothers; [|done]. by do 2 apply list_elem_of_further.
    + rewrite Hothers by (done || apply list_elem_of_here). simpl.
      apply IH; [done| |].
      * apply elem_of_cons in Hin as [?|?]; [congruence|done].
      * intros z Hz. apply Hothers. by apply list_elem_of_further.
Qed.

Lemma reconcile_notifications s k :
  notifications_for k (reconcile s).2 =
  if decide (id s = k) then (reconcile s).2 else [].
Proof.
  unfold notifications_for, reconcile.
  destruct (negb (isAlive (process s)) && bool_decide (status s <> offline));
    [|destruct (isAlive (process s) && bool_decide (status s = offline))];
    simpl; case_decide; try done.
  - by rewrite filter_cons_True.
  - by rewrite filter_cons_False.
  - by rewrite filter_cons_True.
  - by rewrite filter_cons_False.
Qed.

(** What one call of [checkHealth] does, in terms of the test of line 265.
    It returns, leaves the registry as it is and extends the log by some
    notifications [new].  For the session registered under [k], with the
    process liveness the code observes (alive: not [killed] and no recorded
    exit code): if it is not alive and its status is not offline, its status
    becomes offline and exactly one notification names it,
    [statusChange(k, offline)]; if it is alive and its status is offline, its
    status becomes idle and exactly one notification names it,
    [statusChange(k, idle)]; in every other case the session is unchanged
    and no notification names it. *)
Lemma checkHealth_reconciles_every_session st :
  wf st ->
  let st' := fst (checkHealth st) in
  snd (checkHealth st) = Return tt /\
  sessions st' = sessions st /\
  exists new,
    emitted st' = emitted st ++ new /\
    forall k l s,
      map_get k (sessions st) = Some l -> heap st !! l = Some s ->
      (isAlive (process s) = false <->
         killed (process s) = true \/ exitCode (process s) <> None) /\
      exists s',
        heap st' !! l = Some s' /\ id s' = k /\ process s' = process s /\
        (isAlive (process s) = false -> status s <> offline ->
           status s' = offline /\
           notifications_for k new = [EvStatusChange k offline]) /\
        (isAlive (process s) = true -> status s = offline ->
           status s' = idle /\
           notifications_for k new = [EvStatusChange k idle]) /\
        ((isAlive (process s) = false /\ status s = offline) \/
         (isAlive (process s) = true /\ status s <> offline) ->
           s' = s /\ notifications_for k new = []).
Proof.
  intros Hwf st'. pose proof Hwf as [Hnd Hreg].
  assert (Hin : forall l, l ∈ getSessions st -> is_Some (heap st !! l)).
  { intros l Hl. unfold getSessions, map_values in Hl.
    apply list_elem_of_fmap in Hl as ([k l'] & -> & Hl).
    apply elem_of_map_get in Hl; [|done].
    destruct (Hreg _ _ Hl) as (s & Hs & _). by exists s. }
  destruct (checkHealth_loop (getSessions st) st (wf_values_NoDup st Hwf) Hin)
    as (Hsess & Hheap & Hlog).
  split; [done|]. split; [exact Hsess|].
  eexists. split; [exact Hlog|].
  intros k l s Hget Hl. split; [apply isAlive_false|].
  assert (Hel : l ∈ getSessions st).
  { unfold getSessions, map_values. apply list_elem_of_fmap.
    exists (k, l). split; [done|]. by apply map_get_elem_of. }
  destruct (Hreg _ _ Hget) as (s0 & Hs0 & Hid).
  assert (s0 = s) as -> by congruence.
  assert (Hnew : notifications_for k
            (concat ((fun l => from_option (fun s => (reconcile s).2) []
                                 (heap st !! l)) <$> getSessions st))
          = (reconcile s).2).
  { unfold notifications_for.
    rewrite (filter_concat_unique _ _ l) by first
      [ by apply wf_values_NoDup | done
      | intros l' Hl' Hne; destruct (Hin l' Hl') as [s' Hs'];
        rewrite Hs'; simpl;
        pose proof (reconcile_notifications s' k) as Hrn;
        unfold notifications_for in Hrn; rewrite Hrn;
        rewrite decide_False; [done|];
        intros Hk; apply Hne;
        unfold getSessions, map_values in Hl';
        apply list_elem_of_fmap in Hl' as ([k' l''] & -> & Hl');
        apply elem_of_map_get in Hl'; [|done];
        destruct (Hreg _ _ Hl') as (s2 & Hs2 & Hid2);
        simpl in *; congruence ].
    rewrite Hl. simpl.
    pose proof (reconcile_notifications s k) as Hrn.
    unfold notifications_for in Hrn. rewrite Hrn. by rewrite decide_True. }
  exists (reconcile s).1. rewrite Hnew.
  split; [exact (eq_trans (Hheap l s Hl) (f_equal Some (decide_True _ _ Hel)))|].
  unfold reconcile.
  destruct (isAlive (process s)) eqn:Halive;
    [ destruct (bool_decide (status s = offline)) eqn:Hst
    | destruct (bool_decide (status s <> offline)) eqn:Hst ];
    simpl;
    [ apply bool_decide_eq_true in Hst | apply bool_decide_eq_false in Hst
    | apply bool_decide_eq_true in Hst | apply bool_decide_eq_false in Hst ];
    (split; [exact Hid|]); (split; [reflexivity|]); rewrite ?Hid.
  - split; [intros Ha; discriminate Ha|]. split; [by intros _ _|].
    intros [[Ha _]|[_ Hs]]; [discriminate Ha | by destruct Hs].
  - split; [intros Ha; discriminate Ha|]. split; [intros _ Hs; by destruct Hst|].
    by intros _.
  - split; [by intros _ _|]. split; [intros Ha; discriminate Ha|].
    intros [[_ Hs]|[Ha _]]; [by destruct Hst | discriminate Ha].
  - split; [intros _ Hs; by destruct Hst|]. split; [intros Ha; discriminate Ha|].
    by intros _.
Qed.

(** Example: the process of session "a" has exit code 1 on record while
    the session is still idle; one reconciliation marks it offline and
    notifies that once. *)
Lemma checkHealth_reconciles_every_session_example :
  let st := record_exit 0 (Some 1%Z) (one_session true) in
  let st' := fst (checkHealth st) in
  exists s' new,
    heap st' !! 0 = Some s' /\ status s' = offline /\
    emitted st' = emitted st ++ new /\
    notifications_for "a" new = [EvStatusChange "a" offline].
Proof.
  intros st st'.
  destruct (checkHealth_reconciles_every_session st
              (wf_record_exit _ 0 (Some 1%Z)
                 (wf_run true "/home/u" sample_join
                    [CallCreate no_options (sample_env "a" 1000)] init wf_init)))
    as (_ & _ & new & Hlog & Hall).
  destruct (Hall "a" 0 _ eq_refl eq_refl)
    as (_ & s' & Hs' & _ & _ & Hdead & _ & _).
  destruct (Hdead eq_refl) as [Hstatus Hnote]; [discriminate|].
  exists s', new. split; [exact Hs'|]. split; [exact Hstatus|].
  split; [exact Hlog | exact Hnote].
Qed.

(** C5, the code at the failing input.  Session "a" is created and its
    process is ended by a signal: Node emits [exit] with no exit code,
    having recorded none ([exitCode] stays null and [killed] false, the
    signal is recorded elsewhere), and the [exit] listener sets the session
    offline.  The next [checkHealth] finds no [killed] flag and no exit
    code, takes the process for alive, sets the session idle and notifies
    [statusChange("a", idle)]: the session "came back" though its process
    has exited.  From then on the session stays idle: a later [checkHealth]
    changes nothing. *)
Theorem checkHealth_revives_signalled_session :
  let st1 := run false "/home/u" sample_join init
               [CallCreate no_options (sample_env "a" 1000);
                ProcessExit 0 None] in
  let st2 := fst (checkHealth st1) in
  status_of st1 "a" = Some offline /\
  emitted st1 = [EvExit "a" None; EvStatusChange "a" offline] /\
  (exists session,
     lookup_session st1 "a" = Some (0, session) /\
     killed (process session) = false /\
     exitCode (process session) = None /\
     isAlive (process session) = true) /\
  status_of st2 "a" = Some idle /\
  emitted st2 = emitted st1 ++ [EvStatusChange "a" idle] /\
  checkHealth st2 = (st2, Return tt).
Proof.
  intros st1 st2. split; [reflexivity|]. split; [reflexivity|].
  split; [eexists; split; [reflexivity|]; repeat split; reflexivity|].
  split; [reflexivity|]. split; reflexivity.
Qed.

(** ** Notifications of status changes *)

(** [updateStatus] notifies exactly when it changes the status. *)
Lemma updateStatus_notifies_changes st k v l s :
  lookup_session st k = Some (l, s) ->
  let st' := fst (updateStatus st k v) in
  emitted st' = emitted st ++ (if decide (status s = v) then [] else [EvStatusChange k v]) /\
  status_of st' k = Some v.
Proof.
  intros Hlk st'. unfold st', updateStatus, status_of. rewrite Hlk.
  apply lookup_session_Some in Hlk as [Hget Hl].
  destruct (decide (status s <> v)) as [Hne|Heq]; simpl.
  - rewrite decide_False by done. split; [done|].
    unfold lookup_session, deref. simpl. rewrite Hget.
    rewrite list_lookup_insert_eq by (by eapply lookup_lt_Some). done.
  - assert (status s = v) as <- by (by destruct (decide (status s = v))).
    rewrite decide_True by done. rewrite app_nil_r. split; [done|].
    unfold lookup_session, deref. by rewrite Hget, Hl.
Qed.

(** The [exit] and [error] listeners notify a status change whatever the
    status was. *)
Lemma onExit_always_notifies st l s code :
  heap st !! l = Some s ->
  emitted (onExit l code st) =
    emitted st ++ [EvExit (closure_id (process s)) code;
                   EvStatusChange (closure_id (process s)) offline].
Proof.
  intros Hl. unfold onExit, deref. rewrite Hl. simpl.
  by rewrite <- (assoc_L (++)).
Qed.

Lemma onError_always_notifies st l s error :
  heap st !! l = Some s ->
  emitted (onError l error st) =
    emitted st ++ [EvError (closure_id (process s)) error;
                   EvStatusChange (closure_id (process s)) offline].
Proof.
  intros Hl. unfold onError, deref. rewrite Hl. simpl.
  by rewrite <- (assoc_L (++)).
Qed.

(** C3, the code at the failing input.  Session "a" is created; its process
    reports an error and then exits with code 1.  The status changes once,
    from idle to offline at the error, and is offline before and after the
    exit; yet the log holds two [statusChange("a", offline)] notifications,
    the second one sent by the exit listener for no change. *)
Theorem exit_after_error_notifies_unchanged_status :
  let ops := [CallCreate no_options (sample_env "a" 1000);
              ProcessError 0 "EPERM"] in
  let st1 := run true "/home/u" sample_join init ops in
  let st2 := step true "/home/u" sample_join st1 (ProcessExit 0 (Some 1%Z)) in
  status_of (one_session true) "a" = Some idle /\
  status_of st1 "a" = Some offline /\
  status_of st2 "a" = Some offline /\
  emitted st1 = [EvError "a" "EPERM"; EvStatusChange "a" offline] /\
  emitted st2 = emitted st1 ++ [EvExit "a" (Some 1%Z); EvStatusChange "a" offline].
Proof. vm_compute. repeat split. Qed.

(** C9, the code at the failing input.  Session "a" is restarted and the
    inner [createSession] mints "b".  Afterwards the new object is
    registered under "a", its [id] field is "a" and nothing is registered
    under "b"; yet when its process exits, the [exit] notification (and the
    status change with it) names "b", and an [error] notification does too:
    the listeners kept the identifier minted at creation. *)
Theorem restarted_session_notifies_minted_id :
  let st0 := one_session true in
  let st1 := fst (restart true "/home/u" sample_join st0 "a"
                    (sample_tenv Delivered) (sample_env "b" 2000)) in
  let st2 := step true "/home/u" sample_join st1 (ProcessExit 1 (Some 0%Z)) in
  let st3 := step true "/home/u" sample_join st1 (ProcessError 1 "EPIPE") in
  getSession st1 "a" = Return (Some 1) /\
  (id <$> heap st1 !! 1) = Some "a" /\
  getSession st1 "b" = Return None /\
  emitted st2 = emitted st1 ++ [EvExit "b" (Some 0%Z); EvStatusChange "b" offline] /\
  emitted st3 = emitted st1 ++ [EvError "b" "EPIPE"; EvStatusChange "b" offline] /\
  status_of st2 "a" = Some offline /\
  notifications_for "a" (emitted st2) = [].
Proof. vm_compute. repeat split. Qed.

(** After any [restart] that returns, the listeners of the new process hold
    the minted identifier, not the one the session is registered under. *)
Lemma restart_listeners_hold_minted_id W H J st k tenv cenv l0 st' l :
  wf st -> map_get k (sessions st) = Some l0 ->
  restart W H J st k tenv cenv = (st', Return (Some l)) ->
  exists session,
    heap st' !! l = Some session /\ id session = k /\
    closure_id (process session) = randomUUID cenv.
Proof.
  intros Hwf Hget Hcall.
  destruct (lookup_session_wf st k l0 Hwf Hget) as (existing & Hlk & _).
  destruct (restart_cases W H J st k tenv cenv l0 existing Hlk)
    as [[m Hthrow]|(session & Heq & _ & Hclosure & _)]; [congruence|].
  rewrite Heq in Hcall. injection Hcall as <- <-.
  exists (set_id k session). simpl. split; [|done].
  apply list_lookup_insert_eq. rewrite length_app. simpl. lia.
Qed.

(** ** Lines and text *)

Lemma split_lines_cons_LF rest : split_lines (String LF rest) = EmptyString :: split_lines rest.
Proof. reflexivity. Qed.

Lemma split_lines_cons_other c rest :
  c <> LF ->
  split_lines (String c rest) =
  match split_lines rest with
  | [] => [String c EmptyString]
  | line :: more => String c line :: more
  end.
Proof.
  intros Hc. simpl. destruct (Ascii.eqb_spec c LF) as [->|_]; [done|]. done.
Qed.







Lemma split_lines_prefix p text :
  split_lines p = [p] ->
  split_lines (p +:+ text) =
  match split_lines text with
  | first :: rest => (p +:+ first) :: rest
  | [] => []
  end.
Proof.
  pose proof (split_lines_nonempty text) as Hne.
  induction p as [|c p IH]; intros Hp.
  - change (EmptyString +:+ text) with text. by destruct (split_lines text).
  - change (String c p +:+ text) with (String c (p +:+ text)).
    destruct (decide (c = LF)) as [->|Hc].
    { rewrite split_lines_cons_LF in Hp. injection Hp as Hp _. discriminate Hp. }
    rewrite split_lines_cons_other in Hp by done.
    rewrite split_lines_cons_other by done.
    assert (Hp' : split_lines p = [p]).
    { pose proof (split_lines_nonempty p).
      destruct (split_lines p) as [|line more]; [done|]. by injection Hp as -> ->. }
    rewrite (IH Hp'). by destruct (split_lines text).
Qed.

Lemma split_lines_lines text line :
  line ∈ split_lines text -> split_lines line = [line].
Proof.
  revert line. induction text as [|c rest IH]; intros line Hin.
  - apply list_elem_of_singleton in Hin as ->. done.
  - destruct (decide (c = LF)) as [->|Hc].
    + change (split_lines (String LF rest)) with (EmptyString :: split_lines rest) in Hin.
      apply elem_of_cons in Hin as [->|Hin]; [done|by apply IH].
    + simpl in Hin. destruct (Ascii.eqb_spec c LF) as [?|_]; [done|].
      pose proof (split_lines_nonempty rest) as Hne.
      destruct (split_lines rest) as [|first more] eqn:Hrest; [done|].
      apply elem_of_cons in Hin as [->|Hin].
      * simpl. destruct (Ascii.eqb_spec c LF) as [?|_]; [done|].
        by rewrite (IH first) by apply list_elem_of_here.
      * apply IH. by apply list_elem_of_further.
Qed.

(** ** What the buffer holds *)














(** X2. The line limit of [getOutput].  For a registered session and a
    positive limit [n], [getOutput(id, n)] joins the last [n] lines of the
    buffer, and the whole buffer when it holds no more than [n].  A negative
    limit [n] does not fail: it joins the buffer without its first [-n]
    lines. *)
Theorem getOutput_limit st k l s :
  lookup_session st k = Some (l, s) ->
  (forall n, (0 < n)%Z ->
     getOutput st k (Some n)
     = Return (join_lines (drop (length (outputBuffer s) - Z.to_nat n) (outputBuffer s)))) /\
  (forall n, (Z.of_nat (length (outputBuffer s)) <= n)%Z -> (0 < n)%Z ->
     getOutput st k (Some n) = getOutput st k None) /\
  (forall n, (n < 0)%Z ->
     getOutput st k (Some n)
     = Return (join_lines (drop (Z.to_nat (- n)) (outputBuffer s)))).
Proof.
  intros Hlk. unfold getOutput. rewrite Hlk. split; [|split].
  - intros n Hn. rewrite decide_False by lia. do 2 f_equal.
    unfold slice_from. replace (- n <? 0)%Z with true by (symmetry; apply Z.ltb_lt; lia).
    f_equal. lia.
  - intros n Hlen Hn. rewrite decide_False by lia. do 2 f_equal.
    unfold slice_from. replace (- n <? 0)%Z with true by (symmetry; apply Z.ltb_lt; lia).
    replace (Z.to_nat _) with 0 by lia. apply drop_0.
  - intros n Hn. rewrite decide_False by lia. do 2 f_equal.
    unfold slice_from. replace (- n <? 0)%Z with false by (symmetry; apply Z.ltb_ge; lia).
    destruct (decide (- n <= Z.of_nat (length (outputBuffer s)))%Z) as [Hle|Hgt].
    + f_equal. lia.
    + rewrite !drop_ge by lia. done.
Qed.

(** Witness for X2: three lines; a limit of 2 gives the last two, a limit of
    -1 everything but the first. *)
Lemma getOutput_limit_witness :
  let st := onStdoutData 0 ("x" +:+ String LF "y" +:+ String LF "z") 5 (one_session true) in
  getOutput st "a" (Some 2%Z) = Return ("y" +:+ String LF "z") /\
  getOutput st "a" (Some (-1)%Z) = Return ("y" +:+ String LF "z").
Proof.
  intros st.
  destruct (getOutput_limit st "a" 0 _ eq_refl) as (Hpos & _ & Hneg).
  split.
  - exact (eq_trans (Hpos 2%Z eq_refl) eq_refl).
  - exact (eq_trans (Hneg (-1)%Z eq_refl) eq_refl).
Defined.

(** ** Standard error *)

(** A prefix without line feed stays on the first line. *)
(** X3. Output on the standard error of a session goes to its buffer and
    nowhere else.  The chunk is split into lines like any other, and the
    first of these lines, only the first, gets the prefix "[stderr] "; the
    buffer is then cut to its last 500 lines.  No notification is sent, the
    registry is unchanged, and [lastActivity] is the reading of the clock. *)
Theorem onStderrData_tags_first_line st l s text now :
  heap st !! l = Some s ->
  stderr (process s) = true ->
  exists first rest s',
    split_lines text = first :: rest /\
    heap (onStderrData l text now st) !! l = Some s' /\
    outputBuffer s' =
      drop (length (outputBuffer s) + S (length rest) - 500)
           (outputBuffer s ++ ("[stderr] " +:+ first) :: rest) /\
    lastActivity s' = now /\
    status s' = status s /\
    emitted (onStderrData l text now st) = emitted st /\
    sessions (onStderrData l text now st) = sessions st.
Proof.
  intros Hl Herr.
  pose proof (split_lines_nonempty text) as Hne.
  destruct (split_lines text) as [|first rest] eqn:Hsplit; [done|].
  exists first, rest.
  exists (set_lastActivity now (appendOutput s ("[stderr] " +:+ text))).
  unfold onStderrData, deref. rewrite Hl, Herr. simpl.
  split; [done|].
  split; [apply list_lookup_insert_eq; by eapply lookup_lt_Some|].
  split; [|by rewrite appendOutput_status].
  rewrite outputBuffer_appendOutput.
  rewrite (split_lines_prefix "[stderr] " text eq_refl), Hsplit.
  rewrite length_app. simpl. done.
Qed.

(** Witness for X3: a chunk of two lines on the standard error of "a". *)
Lemma onStderrData_tags_first_line_witness :
  exists s',
    heap (onStderrData 0 ("oops" +:+ String LF "more") 7 (one_session true)) !! 0
      = Some s' /\
    outputBuffer s' = ["[stderr] oops"; "more"].
Proof.
  destruct (onStderrData_tags_first_line (one_session true) 0 sample_session
              ("oops" +:+ String LF "more") 7 eq_refl eq_refl)
    as (first & rest & s' & Hsplit & Hs' & Hbuf & _).
  exists s'. split; [exact Hs'|].
  injection Hsplit as <- <-. exact Hbuf.
Defined.

(** ** Successful creation *)

(** The state and the object a successful [createSession] gives. *)
Lemma createSession_success W H J st options env p h :
  findClaudePath W H J env = Some p -> truthy p = true -> spawn env = Return h ->
  createSession W H J st options env =
    ({| heap := heap st ++
          [{| id := randomUUID env;
              name := or_else (opt_name options)
                        ("Claude " +:+ pretty (S (sessionCounter st)));
              process := {| pid := sp_pid h; spawnfile := p;
                            spawnargs := launchArgs (default noFlags (opt_flags options));
                            killed := false; exitCode := None;
                            stdin := if sp_stdin h then Some [] else None;
                            stdout := sp_stdout h; stderr := sp_stderr h;
                            closure_id := randomUUID env |};
              status := idle;
              cwd := or_else (opt_cwd options) (process_cwd env);
              createdAt := now_createdAt env;
              lastActivity := now_lastActivity env;
              outputBuffer := []; claudeSessionId := None; currentTool := None |}];
        sessions := map_set (randomUUID env) (length (heap st)) (sessions st);
        sessionCounter := S (sessionCounter st);
        emitted := emitted st |}, Return (length (heap st))).
Proof.
  intros Hfind Htruthy Hspawn. unfold createSession.
  by rewrite Hfind, Htruthy, Hspawn.
Qed.

Lemma map_values_set_absent k v m :
  map_get k m = None -> map_values (map_set k v m) = map_values m ++ [v].
Proof.
  unfold map_values. induction m as [|[k0 v0] m IH]; csimpl; [done|].
  destruct (decide (k = k0)); [done|]. intros Hget. csimpl. by rewrite IH.
Qed.

(** X4. A successful [createSession].  When the executable is located and
    [spawn] returns, [createSession] returns a new object and registers it
    under the minted identifier: [getSession] finds it, it is idle, its
    buffer is empty, it is linked to no Claude session, and its process runs
    the located path.  A missing or empty name gives "Claude N" with N the
    incremented counter, a missing or empty directory the current one, and
    missing flags the three default arguments.  Nothing is notified, no
    existing object changes, the sessions under other identifiers stay, and
    when the identifier is new the session is listed last. *)
Theorem createSession_registers_idle_session W H J st options env p h :
  findClaudePath W H J env = Some p -> truthy p = true -> spawn env = Return h ->
  exists st' session,
    let l := length (heap st) in
    createSession W H J st options env = (st', Return l) /\
    getSession st' (randomUUID env) = Return (Some l) /\
    heap st' !! l = Some session /\
    id session = randomUUID env /\
    status session = idle /\
    outputBuffer session = [] /\
    claudeSessionId session = None /\
    spawnfile (process session) = p /\
    isAlive (process session) = true /\
    (or_else (opt_name options) EmptyString = EmptyString ->
       name session = "Claude " +:+ pretty (S (sessionCounter st))) /\
    (forall n, opt_name options = Some n -> n <> EmptyString -> name session = n) /\
    (or_else (opt_cwd options) EmptyString = EmptyString ->
       cwd session = process_cwd env) /\
    (forall d, opt_cwd options = Some d -> d <> EmptyString -> cwd session = d) /\
    (opt_flags options = None ->
       spawnargs (process session) =
       ["-c"; "--permission-mode=bypassPermissions"; "--dangerously-skip-permissions"]) /\
    emitted st' = emitted st /\
    (forall l' s', heap st !! l' = Some s' -> heap st' !! l' = Some s') /\
    (forall k', k' <> randomUUID env ->
       map_get k' (sessions st') = map_get k' (sessions st)) /\
    (map_get (randomUUID env) (sessions st) = None ->
       getSessions st' = getSessions st ++ [l]).
Proof.
  intros Hfind Htruthy Hspawn.
  eexists _, _. cbv zeta.
  split; [exact (createSession_success W H J st options env p h Hfind Htruthy Hspawn)|].
  unfold getSession, getSessions. simpl.
  split; [by rewrite map_get_set_eq|].
  split; [by apply list_lookup_middle|].
  do 6 (split; [done|]).
  split. { destruct (opt_name options) as [[|c n]|]; simpl; done. }
  split. { intros n -> Hn. by destruct n. }
  split. { destruct (opt_cwd options) as [[|c n]|]; simpl; done. }
  split. { intros n -> Hn. by destruct n. }
  split. { by intros ->. }
  split; [done|].
  split. { intros l' s' Hl'. by apply lookup_app_l_Some. }
  split. { intros k' Hne. by apply map_get_set_ne. }
  apply map_values_set_absent.
Qed.

(** Witness for X4: a second session "b" beside "a". *)
Lemma createSession_registers_idle_session_witness :
  exists st' session,
    createSession true "/home/u" sample_join (one_session true) no_options
      (sample_env "b" 5) = (st', Return 1) /\
    heap st' !! 1 = Some session /\
    name session = "Claude 2" /\
    getSessions st' = [0; 1].
Proof.
  destruct (createSession_registers_idle_session true "/home/u" sample_join
              (one_session true) no_options (sample_env "b" 5)
              "/usr/bin/claude" sample_spawn eq_refl eq_refl eq_refl)
    as (st' & session & Hcall & _ & Hl & _ & _ & _ & _ & _ & _ & Hname & _ & _ & _
        & _ & _ & _ & _ & Hlist).
  exists st', session. split; [exact Hcall|]. split; [exact Hl|].
  split; [exact (Hname eq_refl) | exact (Hlist eq_refl)].
Defined.

(** ** Where the executable is looked for *)

Lemma find_Some_first {A} (f : A -> bool) (l : list A) x :
  List.find f l = Some x ->
  f x = true /\
  exists before after, l = before ++ x :: after /\ forall y, y ∈ before -> f y = false.
Proof.
  induction l as [|a l IH]; simpl; [done|].
  destruct (f a) eqn:Hfa.
  - intros [= ->]. split; [done|]. exists [], l. split; [done|].
    intros y Hy. by apply elem_of_nil in Hy.
  - intros Hfind. destruct (IH Hfind) as (Hfx & before & after & -> & Hbefore).
    split; [done|]. exists (a :: before), after. split; [done|].
    intros y Hy. apply elem_of_cons in Hy as [->|Hy]; [done|by apply Hbefore].
Qed.

(** Every line of a text is free of line feeds. *)
(** X5. Where [findClaudePath] looks.  When [where]/[which] answers, its
    answer is taken as it is, trimmed, and no candidate location is tried:
    elsewhere than on Windows the whole trimmed output, on Windows its first
    line, which holds no line feed.  When the search throws, the result is
    the first candidate location, in the order of the list, that answers
    [--version]: it is in the list, it answers, and no candidate before it
    does; and the result is null exactly when no candidate answers. *)
Theorem findClaudePath_order W H J env :
  (forall out, which_stdout env = Some out -> W = false ->
     findClaudePath W H J env = Some (trim out)) /\
  (forall out, which_stdout env = Some out -> W = true ->
     exists p, findClaudePath W H J env = Some p /\
               head (split_lines (trim out)) = Some p /\
               split_lines p = [p]) /\
  (which_stdout env = None ->
     forall p, findClaudePath W H J env = Some p ->
       version_runs env p = true /\
       exists before after,
         possiblePaths W H J = before ++ p :: after /\
         forall q, q ∈ before -> version_runs env q = false) /\
  (which_stdout env = None ->
     (findClaudePath W H J env = None <->
      forall q, q ∈ possiblePaths W H J -> version_runs env q = false)).
Proof.
  unfold findClaudePath. split; [|split; [|split]].
  - by intros out -> ->.
  - intros out -> ->.
    pose proof (split_lines_nonempty (trim out)) as Hne.
    destruct (split_lines (trim out)) as [|p more] eqn:Hsplit; [done|].
    exists p. split; [done|]. split; [done|].
    apply (split_lines_lines (trim out)). rewrite Hsplit. apply list_elem_of_here.
  - intros -> p Hfind. by apply find_Some_first.
  - intros ->. apply find_None.
Qed.

(** Witness for X5: nothing on the search path, and only the candidate in
    /usr/local/bin answers. *)
Lemma findClaudePath_order_witness :
  let env := {| randomUUID := "b"; process_cwd := "/work"; which_stdout := None;
                version_runs := fun p => bool_decide (p = "/usr/local/bin/claude");
                spawn := Return sample_spawn;
                now_createdAt := 0; now_lastActivity := 0 |} in
  findClaudePath false "/home/u" sample_join env = Some "/usr/local/bin/claude" /\
  version_runs env "/usr/local/bin/claude" = true.
Proof.
  intros env.
  destruct (findClaudePath_order false "/home/u" sample_join env) as (_ & _ & Hfirst & _).
  split; [reflexivity|].
  exact (proj1 (Hfirst eq_refl "/usr/local/bin/claude" eq_refl)).
Defined.

(** ** Interrupting *)

(** X6. [interrupt] is soft.  Whatever the platform and its answers,
    [interrupt(id)] leaves the registry as it is and changes no session's
    buffer, identifier or exit code.  It notifies nothing and changes no
    status, with one exception: elsewhere than on Windows, when the system
    refuses the signal, Node reports the refusal on the ['error'] event of
    the process, whose listener sets the session offline and notifies
    [error] and [statusChange(…, offline)]; [interrupt] then returns true.
    (When nobody listens to the manager's ['error'] event that listener
    throws after setting the session offline, and [interrupt] returns
    false.)  On Windows, for a registered session with an input stream, it
    writes the single character 0x03 to that stream, sets [lastActivity] and
    returns true; with no input stream it still returns true, having written
    nothing.  Elsewhere it returns true whenever [process.kill('SIGINT')]
    returns, even when the signal was not delivered, and false when it
    throws. *)
Theorem interrupt_is_soft W st k now write_throws sigint :
  let r := interrupt W st k now write_throws sigint in
  sessions (fst r) = sessions st /\
  (W = true \/ refusal_heard sigint = false -> emitted (fst r) = emitted st) /\
  (forall l s, heap st !! l = Some s ->
     exists s', heap (fst r) !! l = Some s' /\
       outputBuffer s' = outputBuffer s /\
       id s' = id s /\ exitCode (process s') = exitCode (process s) /\
       (W = true \/ refused sigint = false -> status s' = status s)) /\
  (forall l s written,
     W = true -> lookup_session st k = Some (l, s) ->
     stdin (process s) = Some written -> write_throws = false ->
     snd r = Return true /\
     exists s', heap (fst r) !! l = Some s' /\
       stdin (process s') = Some (written ++ [String ETX EmptyString]) /\
       lastActivity s' = now /\ killed (process s') = killed (process s)) /\
  (forall l s,
     W = true -> lookup_session st k = Some (l, s) ->
     stdin (process s) = None -> r = (store l (set_lastActivity now s) st, Return true)) /\
  (forall l s,
     W = false -> lookup_session st k = Some (l, s) ->
     (sigint = Delivered \/ sigint = NotDelivered -> snd r = Return true) /\
     (sigint = KillThrows -> r = (st, Return false)) /\
     (forall error, sigint = Refused error ->
        snd r = Return true /\
        status_of (fst r) k = Some offline /\
        emitted (fst r) =
          emitted st ++ [EvError (closure_id (process s)) error;
                         EvStatusChange (closure_id (process s)) offline]) /\
     (forall error, sigint = RefusedUnheard error ->
        snd r = Return false /\
        status_of (fst r) k = Some offline /\
        emitted (fst r) = emitted st)).
Proof.
  cbv zeta. split; [|split; [|split; [|split; [|split]]]].
  - unfold interrupt. destruct (lookup_session st k) as [[l0 s0]|] eqn:Hlk; [|done].
    apply lookup_session_Some in Hlk as [_ Hl0].
    unfold onError, onErrorUnheard, deref. rewrite Hl0.
    destruct W; [destruct (stdin (process s0)); [destruct write_throws|]
                | destruct sigint]; done.
  - intros Hquiet. unfold interrupt.
    destruct (lookup_session st k) as [[l0 s0]|] eqn:Hlk; [|done].
    apply lookup_session_Some in Hlk as [_ Hl0].
    unfold onErrorUnheard, deref. rewrite Hl0.
    destruct W; [destruct (stdin (process s0)); [destruct write_throws|]; done|].
    destruct Hquiet as [?|Hq]; [done|]. by destruct sigint.
  - intros l s Hl. unfold interrupt.
    destruct (lookup_session st k) as [[l0 s0]|] eqn:Hlk; [|by exists s].
    apply lookup_session_Some in Hlk as [Hget Hl0].
    assert (Hlt : l0 < length (heap st)) by (by eapply lookup_lt_Some).
    assert (Hkeep : forall (Q : Prop) s1,
              outputBuffer s1 = outputBuffer s0 ->
              id s1 = id s0 -> exitCode (process s1) = exitCode (process s0) ->
              (Q -> status s1 = status s0) ->
              exists s', <[l0:=s1]> (heap st) !! l = Some s' /\
                outputBuffer s' = outputBuffer s /\
                id s' = id s /\ exitCode (process s') = exitCode (process s) /\
                (Q -> status s' = status s)).
    { intros Q s1 ? ? ? ?. destruct (decide (l = l0)) as [->|Hne].
      - exists s1. rewrite list_lookup_insert_eq by done.
        assert (s = s0) as -> by congruence. done.
      - exists s. by rewrite list_lookup_insert_ne. }
    unfold onError, onErrorUnheard, deref. rewrite Hl0.
    destruct W; [destruct (stdin (process s0)); [destruct write_throws|]
                | destruct sigint]; cbn [fst heap store emit];
      first [ by exists s
            | apply Hkeep; first [ done | by intros [?|?] ] ].
  - intros l s written -> Hlk Hin ->. unfold interrupt. rewrite Hlk, Hin. simpl.
    split; [done|]. apply lookup_session_Some in Hlk as [_ Hl].
    eexists. split; [apply list_lookup_insert_eq; by eapply lookup_lt_Some|]. done.
  - intros l s -> Hlk Hin. unfold interrupt. by rewrite Hlk, Hin.
  - intros l s -> Hlk. unfold interrupt. rewrite Hlk.
    apply lookup_session_Some in Hlk as [Hget Hl].
    assert (Hlt : l < length (heap st)) by (by eapply lookup_lt_Some).
    assert (Hoff : forall log,
              status_of {| heap := <[l:=set_status offline s]> (heap st);
                           sessions := sessions st;
                           sessionCounter := sessionCounter st;
                           emitted := log |} k = Some offline).
    { intros log. unfold status_of, lookup_session, deref. cbn [sessions heap].
      rewrite Hget. by rewrite list_lookup_insert_eq. }
    split; [by intros [-> | ->]|]. split; [by intros ->|]. split.
    + intros e ->. unfold onError, deref. rewrite Hl. cbn [fst snd].
      split; [done|]. split; [apply Hoff|].
      cbn [emit emitted store]. by rewrite <- (assoc_L (++)).
    + intros e ->. unfold onErrorUnheard, deref. rewrite Hl. cbn [fst snd].
      split; [done|]. split; [apply Hoff|done].
Qed.

(** Witness for X6: session "a" interrupted on Windows, and elsewhere with
    a signal that the system refuses. *)
Lemma interrupt_is_soft_witness :
  (let r := interrupt true (one_session true) "a" 9 false Delivered in
   snd r = Return true /\
   exists s', heap (fst r) !! 0 = Some s' /\
              stdin (process s') = Some [String ETX EmptyString] /\
              status s' = idle) /\
  (let r := interrupt false (one_session false) "a" 9 false (Refused "EPERM") in
   snd r = Return true /\
   status_of (fst r) "a" = Some offline /\
   emitted (fst r) = [EvError "a" "EPERM"; EvStatusChange "a" offline]).
Proof.
  split.
  - intros r.
    destruct (interrupt_is_soft true (one_session true) "a" 9 false Delivered)
      as (_ & _ & _ & Hwrite & _ & _).
    destruct (Hwrite 0 sample_session [] eq_refl eq_refl eq_refl eq_refl)
      as (Hret & s' & Hs' & Hin & _ & _).
    split; [exact Hret|]. exists s'. split; [exact Hs'|]. split; [exact Hin|].
    pose proof (eq_trans (eq_sym Hs') (eq_refl : heap (fst r) !! 0 = Some _)) as Heq.
    injection Heq as ->. reflexivity.
  - intros r.
    destruct (interrupt_is_soft false (one_session false) "a" 9 false
                (Refused "EPERM")) as (_ & _ & _ & _ & _ & Helse).
    destruct (Helse 0 sample_session eq_refl eq_refl) as (_ & _ & Href & _).
    destruct (Href "EPERM" eq_refl) as (Hret & Hoff & Hlog).
    split; [exact Hret|]. split; [exact Hoff | exact Hlog].
Defined.

(** ** Linking to a Claude session *)

Lemma findByClaudeSession_unfold st c :
  findByClaudeSession st c = Return (List.find (linked_to st c) (getSessions st)).
Proof. reflexivity. Qed.

(** X7. [findByClaudeSession] answers with a registered session linked to
    the given Claude session, the first one in the order of the registry,
    and with undefined exactly when no registered session is linked to it. *)
Theorem findByClaudeSession_finds_first st c :
  (forall l, findByClaudeSession st c = Return (Some l) ->
     exists session before after,
       heap st !! l = Some session /\
       claudeSessionId session = Some c /\
       getSessions st = before ++ l :: after /\
       forall l' s', l' ∈ before -> heap st !! l' = Some s' ->
                     claudeSessionId s' <> Some c) /\
  (findByClaudeSession st c = Return None <->
   forall l s, l ∈ getSessions st -> heap st !! l = Some s ->
               claudeSessionId s <> Some c).
Proof.
  rewrite findByClaudeSession_unfold. split.
  - intros l [= Hfind]. apply find_Some_first in Hfind
      as (Hl & before & after & Hlist & Hbefore).
    unfold linked_to, deref in Hl.
    destruct (heap st !! l) as [session|] eqn:Hs; [|done].
    apply bool_decide_eq_true in Hl.
    exists session, before, after. repeat split; [done..|].
    intros l' s' Hin Hs' Hc. specialize (Hbefore l' Hin).
    unfold linked_to, deref in Hbefore. rewrite Hs' in Hbefore.
    by apply bool_decide_eq_false in Hbefore.
  - split.
    + intros [= Hfind] l s Hin Hs Hc.
      pose proof (proj1 (find_None _ _) Hfind l Hin) as Hl.
      unfold linked_to, deref in Hl. rewrite Hs in Hl.
      by apply bool_decide_eq_false in Hl.
    + intros Hnone. f_equal. apply find_None. intros l Hin.
      unfold linked_to, deref. destruct (heap st !! l) as [s|] eqn:Hs; [|done].
      apply bool_decide_eq_false. by eapply Hnone.
Qed.

(** X8. Linking and finding back.  After [linkClaudeSession(id, c)] on a
    registered session, when no other registered session is linked to [c],
    [findByClaudeSession(c)] returns that session; the link changes nothing
    else of it and notifies nothing.  Linking an identifier that is not
    registered leaves [findByClaudeSession(c)] as it was. *)
Theorem linkClaudeSession_then_find st k c l s :
  wf st ->
  lookup_session st k = Some (l, s) ->
  (forall k' l' s', k' <> k -> lookup_session st k' = Some (l', s') ->
                    claudeSessionId s' <> Some c) ->
  let st' := fst (linkClaudeSession st k c) in
  findByClaudeSession st' c = Return (Some l) /\
  heap st' !! l = Some (set_claudeSessionId (Some c) s) /\
  sessions st' = sessions st /\
  emitted st' = emitted st.
Proof.
  intros Hwf Hlk Hothers st'.
  assert (Hst' : st' = store l (set_claudeSessionId (Some c) s) st).
  { unfold st', linkClaudeSession. by rewrite Hlk. }
  apply lookup_session_Some in Hlk as [Hget Hl].
  assert (Hlt : l < length (heap st)) by (by eapply lookup_lt_Some).
  rewrite Hst'. simpl.
  split; [|by rewrite list_lookup_insert_eq].
  rewrite findByClaudeSession_unfold. f_equal.
  assert (Hin : l ∈ getSessions st).
  { unfold getSessions, map_values. apply list_elem_of_fmap.
    exists (k, l). split; [done|]. by apply map_get_elem_of. }
  pose proof Hwf as [Hnd Hreg].
  change (getSessions (store l (set_claudeSessionId (Some c) s) st))
    with (getSessions st).
  generalize (wf_values_NoDup st Hwf).
  assert (Hall : forall l', l' ∈ getSessions st -> l' <> l ->
            linked_to (store l (set_claudeSessionId (Some c) s) st) c l' = false).
  { intros l' Hl' Hne. unfold linked_to, deref. simpl.
    rewrite list_lookup_insert_ne by done.
    unfold getSessions, map_values in Hl'.
    apply list_elem_of_fmap in Hl' as ([k' l''] & -> & Hl').
    apply elem_of_map_get in Hl'; [|done]. simpl in *.
    destruct (Hreg _ _ Hl') as (s' & Hs' & Hid'). rewrite Hs'.
    apply bool_decide_eq_false. apply (Hothers k' l'' s').
    - intros ->. congruence.
    - by apply lookup_session_Some. }
  assert (Hself : linked_to (store l (set_claudeSessionId (Some c) s) st) c l = true).
  { unfold linked_to, deref. simpl. rewrite list_lookup_insert_eq by done.
    simpl. by apply bool_decide_eq_true. }
  revert Hin Hall. generalize (getSessions st). intros ls.
  induction ls as [|x ls IH]; intros Hin Hall Hnd'.
  - by apply elem_of_nil in Hin.
  - simpl. destruct (decide (x = l)) as [->|Hne].
    + by rewrite Hself.
    + rewrite Hall by (done || apply list_elem_of_here).
      apply IH.
      * apply elem_of_cons in Hin as [?|?]; [congruence|done].
      * intros l' Hl'. apply Hall. by apply list_elem_of_further.
      * by apply NoDup_cons in Hnd' as [_ ?].
Qed.

(** Witness for X8: session "a" linked to "c1" and found back. *)
Lemma linkClaudeSession_then_find_witness :
  findByClaudeSession (fst (linkClaudeSession (one_session true) "a" "c1")) "c1"
  = Return (Some 0).
Proof.
  refine (proj1 (linkClaudeSession_then_find (one_session true) "a" "c1" 0
                   sample_session
                   (wf_run true "/home/u" sample_join
                      [CallCreate no_options (sample_env "a" 1000)] init wf_init)
                   eq_refl _)).
  intros k' l' s' Hne Hlk. unfold lookup_session in Hlk. simpl in Hlk.
  destruct (decide (k' = "a")); [done|discriminate Hlk].
Defined.

(** ** Cleaning up *)

Lemma cleanup_loop W tenv ks : forall st,
  wf st -> NoDup ks ->
  let st' := foldl (fun st0 k => fst (kill W st0 k (tenv k))) st ks in
  sessions st' =
    filter (fun p => p.1 ∉ ks \/ kill_throws W (tenv p.1) = true) (sessions st).
Proof.
  induction ks as [|k ks IH]; intros st Hwf Hnd; cbv zeta; unfold SessionMap in *.
  - cbn [foldl]. symmetry. apply filter_all.
    intros p _. left. apply not_elem_of_nil.
  - apply NoDup_cons in Hnd as [Hnot Hnd]. cbn [foldl].
    rewrite (IH (fst (kill W st k (tenv k))) (wf_kill W st k (tenv k) Hwf) Hnd).
    rewrite (kill_sessions W st k (tenv k) Hwf).
    destruct (kill_throws W (tenv k)) eqn:Hthrows.
    + apply list_filter_iff. intros [k' l']. simpl.
      rewrite not_elem_of_cons. split.
      * intros [?|?]; [|by right]. destruct (decide (k' = k)) as [->|?];
          [by right | by left].
      * intros [[_ ?]|?]; [by left | by right].
    + rewrite map_delete_filter, list_filter_filter.
      apply list_filter_iff. intros [k' l']. simpl.
      rewrite not_elem_of_cons. split.
      * intros [[?|?] ?]; [by left | by right].
      * intros [[? ?]|Hk']; [split; [by left|done]|].
        split; [by right|]. intros ->. congruence.
Qed.

Lemma cleanup_loop_emitted W tenv ks : forall st,
  (W = true \/ forall k, k ∈ ks -> refusal_heard (sigterm (tenv k)) = false) ->
  emitted (foldl (fun st0 k => fst (kill W st0 k (tenv k))) st ks) = emitted st.
Proof.
  induction ks as [|k ks IH]; intros st Hquiet; [done|]. cbn [foldl].
  rewrite IH.
  - apply kill_emitted. destruct Hquiet as [?|Hq]; [by left|].
    right. apply Hq, list_elem_of_here.
  - destruct Hquiet as [?|Hq]; [by left|].
    right. intros k' Hk'. by apply Hq, list_elem_of_further.
Qed.

(** X9. [cleanup] sweeps the whole registry.  On a well-formed state it
    returns without throwing and leaves registered exactly the sessions
    whose termination threw, in their order: on Windows the registry is
    empty afterwards whatever [taskkill] answered; elsewhere a session stays
    only when [process.kill('SIGTERM')] threw for it, and the sweep goes on
    to the sessions after it.  A session whose signal was not delivered, or
    was refused with the error reported, is removed like the others.  The
    sweep notifies nothing on Windows, and nothing elsewhere unless a signal
    is refused, in which case the ['error'] listener of that process
    notifies. *)
Theorem cleanup_leaves_only_failed_kills W st tenv :
  wf st ->
  let r := cleanup W st tenv in
  snd r = Return tt /\
  sessions (fst r) =
    filter (fun p => kill_throws W (tenv p.1) = true) (sessions st) /\
  (W = true \/
   (forall k, k ∈ map_keys (sessions st) ->
      refusal_heard (sigterm (tenv k)) = false) ->
   emitted (fst r) = emitted st) /\
  (W = true -> getSessions (fst r) = []) /\
  (forall k, map_get k (sessions (fst r)) <> None ->
     W = false /\
     (sigterm (tenv k) = KillThrows \/
      exists error, sigterm (tenv k) = RefusedUnheard error)).
Proof.
  intros Hwf r. pose proof Hwf as [Hnd _]. unfold SessionMap in *.
  pose proof (cleanup_loop W tenv (map_keys (sessions st)) st Hwf Hnd) as Hsess.
  assert (Hfilter : sessions (fst r) =
            filter (fun p => kill_throws W (tenv p.1) = true) (sessions st)).
  { unfold r, cleanup. cbn [fst]. cbv zeta in Hsess. rewrite Hsess.
    apply filter_ext_in.
    intros [k l] Hin. simpl. split; [|by right].
    intros [Hnot|?]; [|done]. exfalso. apply Hnot.
    unfold map_keys. apply list_elem_of_fmap. by exists (k, l). }
  split; [done|]. split; [exact Hfilter|].
  split; [intros Hquiet; by apply cleanup_loop_emitted|].
  unfold SessionMap in *. split.
  - intros ->. unfold getSessions. rewrite Hfilter.
    rewrite filter_none; [done|]. by intros p _.
  - intros k Hk. rewrite Hfilter in Hk.
    destruct (map_get k _) as [l|] eqn:Hget; [|done].
    apply map_get_elem_of in Hget. apply list_elem_of_filter in Hget as [Hthrows _].
    simpl in Hthrows. unfold kill_throws in Hthrows.
    destruct W; [done|]. split; [done|].
    destruct (sigterm (tenv k)) as [| |e|e|]; try done; [right; by exists e | by left].
Qed.

(** Witness for X9: three sessions, not on Windows; the signal throws for
    "a" only; "b" and "c", which come after it, are still swept, "c" with a
    refused signal. *)
Lemma cleanup_leaves_only_failed_kills_witness :
  let st := run false "/home/u" sample_join init
              [CallCreate no_options (sample_env "a" 1);
               CallCreate no_options (sample_env "b" 2);
               CallCreate no_options (sample_env "c" 3)] in
  let tenv := fun k => sample_tenv (if decide (k = "a") then KillThrows
                                    else if decide (k = "b") then Delivered
                                    else Refused "EPERM") in
  sessions st = [("a", 0); ("b", 1); ("c", 2)] /\
  sessions (fst (cleanup false st tenv)) = [("a", 0)].
Proof.
  intros st tenv. split; [reflexivity|].
  destruct (cleanup_leaves_only_failed_kills false st tenv
              (wf_run false "/home/u" sample_join _ init wf_init))
    as (_ & Hsess & _).
  exact (eq_trans Hsess eq_refl).
Defined.

(** ** Status updates by the caller *)

Lemma status_of_store_other st l s' k l0 :
  map_get k (sessions st) = Some l0 -> l0 <> l ->
  status_of (store l s' st) k = status_of st k.
Proof.
  intros Hget Hne. unfold status_of, lookup_session, deref. simpl.
  rewrite Hget. by rewrite list_lookup_insert_ne.
Qed.

(** X10. [updateStatus(id, status)] on a registered session sets the status
    and notifies [statusChange(id, status)] exactly when the status differs
    from the current one; when it is the same, the state is unchanged and
    nothing is notified, so that a repeated call is silent.  The status of
    every other registered session is untouched. *)
Theorem updateStatus_sets_and_notifies_once st k v l s :
  wf st ->
  lookup_session st k = Some (l, s) ->
  let st' := fst (updateStatus st k v) in
  status_of st' k = Some v /\
  (status s <> v -> emitted st' = emitted st ++ [EvStatusChange k v]) /\
  (status s = v -> st' = st) /\
  updateStatus st' k v = (st', Return tt) /\
  sessions st' = sessions st /\
  (forall k', k' <> k -> status_of st' k' = status_of st k').
Proof.
  intros Hwf Hlk st'. pose proof Hlk as [Hget Hl]%lookup_session_Some.
  assert (Hlt : l < length (heap st)) by (by eapply lookup_lt_Some).
  destruct (decide (status s = v)) as [Heq|Hne].
  - assert (Hst' : st' = st).
    { unfold st', updateStatus. rewrite Hlk. by rewrite decide_False by tauto. }
    rewrite Hst'. unfold status_of at 1. rewrite Hlk.
    split; [by rewrite Heq|]. split; [done|]. split; [done|].
    split; [|done]. unfold updateStatus. rewrite Hlk.
    by rewrite decide_False by tauto.
  - assert (Hst' : st' = emit (EvStatusChange k v) (store l (set_status v s) st)).
    { unfold st', updateStatus. rewrite Hlk. by rewrite decide_True. }
    assert (Hlk' : lookup_session st' k = Some (l, set_status v s)).
    { rewrite Hst'. apply lookup_session_Some. simpl. split; [done|].
      by apply list_lookup_insert_eq. }
    split; [unfold status_of; by rewrite Hlk'|].
    split; [intros _; by rewrite Hst'|]. split; [done|].
    split; [unfold updateStatus; rewrite Hlk'; simpl; by rewrite decide_False by tauto|].
    split; [by rewrite Hst'|].
    intros k' Hk'. rewrite Hst'.
    change (status_of (emit (EvStatusChange k v) (store l (set_status v s) st)) k')
      with (status_of (store l (set_status v s) st) k').
    destruct (map_get k' (sessions st)) as [l'|] eqn:Hget'.
    + apply (status_of_store_other st l _ k' l' Hget').
      intros ->. destruct Hwf as [_ Hreg].
      destruct (Hreg _ _ Hget) as (s1 & Hs1 & Hid1).
      destruct (Hreg _ _ Hget') as (s2 & Hs2 & Hid2). congruence.
    + unfold status_of, lookup_session. simpl. by rewrite Hget'.
Qed.

(** Witness for X10: "a" goes from idle to working; asking again is silent. *)
Lemma updateStatus_sets_and_notifies_once_witness :
  let st' := fst (updateStatus (one_session true) "a" working) in
  status_of st' "a" = Some working /\
  emitted st' = [EvStatusChange "a" working] /\
  updateStatus st' "a" working = (st', Return tt).
Proof.
  intros st'.
  destruct (updateStatus_sets_and_notifies_once (one_session true) "a" working 0
              sample_session
              (wf_run true "/home/u" sample_join
                 [CallCreate no_options (sample_env "a" 1000)] init wf_init)
              eq_refl)
    as (Hstatus & Hnote & _ & Hagain & _).
  split; [exact Hstatus|]. split; [|exact Hagain].
  apply Hnote. discriminate.
Defined.

(** ** The registry over time *)

(** X11. Identifiers stay unique.  After any sequence of calls and process
    events from the empty manager, on any platform: no identifier is
    registered twice, every registered identifier leads to an object whose
    [id] field is that identifier, and [getSessions] lists an object at most
    once; so no two registered sessions share an [id]. *)
Theorem registry_ids_stay_unique W H J ops :
  let st := run W H J init ops in
  NoDup (map_keys (sessions st)) /\
  NoDup (getSessions st) /\
  (forall k l, map_get k (sessions st) = Some l ->
     exists s, heap st !! l = Some s /\ id s = k) /\
  (forall k1 k2 l1 l2 s1 s2,
     lookup_session st k1 = Some (l1, s1) ->
     lookup_session st k2 = Some (l2, s2) ->
     id s1 = id s2 \/ l1 = l2 -> k1 = k2).
Proof.
  intros st. pose proof (wf_run W H J ops init wf_init) as Hwf. fold st in Hwf.
  split; [apply Hwf|]. split; [by apply wf_values_NoDup|].
  split; [apply Hwf|].
  intros k1 k2 l1 l2 s1 s2 [Hg1 Hl1]%lookup_session_Some
    [Hg2 Hl2]%lookup_session_Some Hsame.
  destruct Hwf as [_ Hreg].
  destruct (Hreg _ _ Hg1) as (s1' & Hs1 & Hid1).
  destruct (Hreg _ _ Hg2) as (s2' & Hs2 & Hid2).
  destruct Hsame as [?| ->]; congruence.
Qed.

(** ** More on restart *)

(** X12. A restart that cannot relaunch loses the session.  When the
    session is registered and the executable cannot be located, [restart]
    throws the error of [createSession]; by then the old session has been
    killed, so, unless its termination threw, the identifier is no longer
    registered: [getSession(id)] is undefined afterwards.  [restart] itself
    notifies nothing; the only notifications are those of the ['error']
    listener when the signal of the inner [kill] is refused. *)
Theorem restart_not_found_loses_session W H J st k tenv cenv l existing :
  wf st ->
  lookup_session st k = Some (l, existing) ->
  findClaudePath W H J cenv = None \/ findClaudePath W H J cenv = Some EmptyString ->
  let r := restart W H J st k tenv cenv in
  snd r = Throw "Claude CLI not found. Please ensure it is installed and in PATH." /\
  emitted (fst r) = emitted (fst (kill W st k tenv)) /\
  (W = true \/ refusal_heard (sigterm tenv) = false ->
   emitted (fst r) = emitted st) /\
  (kill_throws W tenv = false -> getSession (fst r) k = Return None) /\
  (kill_throws W tenv = true -> getSession (fst r) k = Return (Some l)).
Proof.
  intros Hwf Hlk Hfind r.
  assert (Hr : r = (count_session (fst (kill W st k tenv)),
                    Throw "Claude CLI not found. Please ensure it is installed and in PATH.")).
  { unfold r, restart. rewrite Hlk. unfold createSession.
    by destruct Hfind as [-> | ->]. }
  rewrite Hr. unfold getSession. simpl.
  rewrite (kill_sessions W st k tenv Hwf).
  split; [done|]. split; [done|]. split; [apply kill_emitted|].
  apply lookup_session_Some in Hlk as [Hget _].
  split; intros ->; [by rewrite map_get_delete_eq | by rewrite Hget].
Qed.

(** Witness for X12: session "a" on Windows, the executable gone. *)
Lemma restart_not_found_loses_session_witness :
  let r := restart true "/home/u" sample_join (one_session true) "a"
             (sample_tenv Delivered) (missing_env "b" 5) in
  snd r = Throw "Claude CLI not found. Please ensure it is installed and in PATH." /\
  getSession (fst r) "a" = Return None /\
  emitted (fst r) = [].
Proof.
  intros r.
  destruct (restart_not_found_loses_session true "/home/u" sample_join
              (one_session true) "a" (sample_tenv Delivered) (missing_env "b" 5)
              0 sample_session
              (wf_run true "/home/u" sample_join
                 [CallCreate no_options (sample_env "a" 1000)] init wf_init)
              eq_refl (or_introl eq_refl))
    as (Hthrow & _ & Hquiet & Hgone & _).
  split; [exact Hthrow|]. split; [exact (Hgone eq_refl)|].
  exact (Hquiet (or_introl eq_refl)).
Defined.

(** X13. What a restart carries over.  When the session is registered, the
    executable is located and [spawn] returns, [restart] returns a session
    with the name and the working directory of the old one (when these are
    not empty), created at the new reading of the clock.  It does not carry
    over the rest: the new session is linked to no Claude session, and its
    process is launched with the three default arguments whatever the flags
    of the old one were.  The old object is left in the store with its
    buffer, no longer registered. *)
Theorem restart_carries_name_and_cwd W H J st k tenv cenv l0 existing p h :
  wf st ->
  lookup_session st k = Some (l0, existing) ->
  findClaudePath W H J cenv = Some p -> truthy p = true -> spawn cenv = Return h ->
  exists st' l session,
    restart W H J st k tenv cenv = (st', Return (Some l)) /\
    heap st' !! l = Some session /\
    l <> l0 /\
    (name existing <> EmptyString -> name session = name existing) /\
    (cwd existing <> EmptyString -> cwd session = cwd existing) /\
    createdAt session = now_createdAt cenv /\
    claudeSessionId session = None /\
    spawnfile (process session) = p /\
    spawnargs (process session) =
      ["-c"; "--permission-mode=bypassPermissions"; "--dangerously-skip-permissions"] /\
    (exists old, heap st' !! l0 = Some old /\
                 outputBuffer old = outputBuffer existing /\
                 id old = id existing).
Proof.
  intros Hwf Hlk Hfind Htruthy Hspawn.
  pose proof Hlk as [Hget Hl0]%lookup_session_Some.
  assert (Hlt : l0 < length (heap st)) by (by eapply lookup_lt_Some).
  set (st1 := fst (kill W st k tenv)).
  assert (Hold : exists old, heap st1 !! l0 = Some old /\
                   outputBuffer old = outputBuffer existing /\ id old = id existing).
  { unfold st1. rewrite (kill_registered W st k tenv l0 existing Hlk).
    exists (kill_object W tenv existing). cbn [fst heap].
    split; [by apply list_lookup_insert_eq|].
    destruct (kill_object_keeps W tenv existing) as (Hi & _ & _ & Hb & _).
    done. }
  assert (Hlen : length (heap st1) = length (heap st)) by apply kill_heap_length.
  eexists _, (length (heap st1)), _.
  split.
  { unfold restart. rewrite Hlk. fold st1.
    rewrite (createSession_success W H J st1 _ cenv p h Hfind Htruthy Hspawn).
    unfold deref. cbn [heap]. rewrite list_lookup_middle by done.
    cbn [id]. reflexivity. }
  cbn [heap with_sessions store].
  split. { apply list_lookup_insert_eq. rewrite length_app. simpl. lia. }
  split; [lia|]. simpl.
  split. { intros Hn. by destruct (name existing). }
  split. { intros Hn. by destruct (cwd existing). }
  do 4 (split; [done|]).
  destruct Hold as (old & Hold & Hbuf & Hid). exists old. split; [|done].
  rewrite list_lookup_insert_ne by lia. by apply lookup_app_l_Some.
Qed.

(** Witness for X13: "a" was created with the browser flag and linked to a
    Claude session; after the restart neither is there. *)
Lemma restart_carries_name_and_cwd_witness :
  let created := fst (createSession true "/home/u" sample_join init
                   {| opt_name := Some "build"; opt_cwd := Some "/src";
                      opt_flags := Some {| continue := Some false;
                                           skipPermissions := None;
                                           chrome := Some true |} |}
                   (sample_env "a" 1)) in
  let st := fst (linkClaudeSession created "a" "c1") in
  (spawnargs <$> (process <$> heap st !! 0)) =
    Some ["--permission-mode=bypassPermissions"; "--dangerously-skip-permissions";
          "--chrome"] /\
  exists st' l session,
    restart true "/home/u" sample_join st "a" (sample_tenv Delivered)
      (sample_env "b" 2) = (st', Return (Some l)) /\
    heap st' !! l = Some session /\
    name session = "build" /\ cwd session = "/src" /\
    claudeSessionId session = None /\
    spawnargs (process session) =
      ["-c"; "--permission-mode=bypassPermissions"; "--dangerously-skip-permissions"].
Proof.
  intros created st. split; [reflexivity|].
  assert (Hwf : wf st).
  { apply wf_linkClaudeSession.
    exact (wf_createSession true "/home/u" sample_join init _ _ wf_init). }
  destruct (restart_carries_name_and_cwd true "/home/u" sample_join st "a"
              (sample_tenv Delivered) (sample_env "b" 2) 0 _
              "/usr/bin/claude" sample_spawn Hwf eq_refl eq_refl eq_refl eq_refl)
    as (st' & l & session & Hcall & Hl & _ & Hname & Hcwd & _ & Hlink & _ & Hargs & _).
  exists st', l, session. split; [exact Hcall|]. split; [exact Hl|].
  split; [apply Hname; discriminate|]. split; [apply Hcwd; discriminate|].
  split; [exact Hlink | exact Hargs].
Defined.

(** ** Reconciliation, again *)

Lemma reconcile_settled s :
  reconcile (reconcile s).1 = ((reconcile s).1, []) /\
  (status (reconcile s).1 = offline <-> isAlive (process s) = false) /\
  process (reconcile s).1 = process s /\
  id (reconcile s).1 = id s.
Proof.
  unfold reconcile.
  destruct (isAlive (process s)) eqn:Halive;
    destruct (decide (status s = offline)) as [Hst|Hst]; simpl.
  - rewrite (bool_decide_eq_true_2 _ Hst). simpl. rewrite Halive. simpl.
    repeat split; done.
  - rewrite (bool_decide_eq_false_2 _ Hst). simpl. rewrite Halive. simpl.
    rewrite (bool_decide_eq_false_2 _ Hst). repeat split; done.
  - assert (Hb : bool_decide (status s <> offline) = false)
      by (apply bool_decide_eq_false_2; tauto).
    rewrite Hb. simpl. rewrite Halive. simpl. rewrite Hb. repeat split; done.
  - rewrite (bool_decide_eq_true_2 _ Hst). simpl. rewrite Halive. simpl.
    repeat split; done.
Qed.

Lemma checkSession_settled st l s :
  heap st !! l = Some s -> reconcile s = (s, []) -> checkSession st l = st.
Proof.
  intros Hl Hfix. rewrite (checkSession_reconcile st l s Hl), Hfix. simpl.
  rewrite list_insert_id by done. rewrite app_nil_r. by destruct st.
Qed.

Lemma checkHealth_settled ls st :
  (forall l, l ∈ ls -> exists s, heap st !! l = Some s /\ reconcile s = (s, [])) ->
  foldl checkSession st ls = st.
Proof.
  induction ls as [|l ls IH]; intros Hall; [done|]. cbn [foldl].
  destruct (Hall l (list_elem_of_here l ls)) as (s & Hl & Hfix).
  rewrite (checkSession_settled st l s Hl Hfix). apply IH.
  intros l' Hl'. by apply Hall, list_elem_of_further.
Qed.

(** X14. Reconciliation settles.  After one [checkHealth], every registered
    session is offline exactly when its process is not alive (killed, or with
    an exit code on record), and its process and identifier are as before.
    A second [checkHealth] right after the first changes nothing and
    notifies nothing. *)
Theorem checkHealth_settles st :
  wf st ->
  let st' := fst (checkHealth st) in
  (forall k l s', lookup_session st' k = Some (l, s') ->
     (status s' = offline <-> isAlive (process s') = false) /\
     exists s, lookup_session st k = Some (l, s) /\
               process s' = process s /\ id s' = id s) /\
  checkHealth st' = (st', Return tt).
Proof.
  intros Hwf st'. pose proof Hwf as [Hnd Hreg].
  assert (Hin : forall l, l ∈ getSessions st -> is_Some (heap st !! l)).
  { intros l Hl. unfold getSessions, map_values in Hl.
    apply list_elem_of_fmap in Hl as ([k l'] & -> & Hl).
    apply elem_of_map_get in Hl; [|done].
    destruct (Hreg _ _ Hl) as (s & Hs & _). by exists s. }
  destruct (checkHealth_loop (getSessions st) st (wf_values_NoDup st Hwf) Hin)
    as (Hsess & Hheap & _).
  change (foldl checkSession st (getSessions st)) with st' in Hsess, Hheap.
  assert (Hobj : forall l, l ∈ getSessions st ->
            exists s, heap st !! l = Some s /\ heap st' !! l = Some (reconcile s).1).
  { intros l Hl. destruct (Hin l Hl) as [s Hs]. exists s. split; [done|].
    rewrite (Hheap l s Hs). by rewrite decide_True. }
  split.
  - intros k l s' [Hget Hl]%lookup_session_Some. rewrite Hsess in Hget.
    assert (Hel : l ∈ getSessions st).
    { unfold getSessions, map_values. apply list_elem_of_fmap.
      exists (k, l). split; [done|]. by apply map_get_elem_of. }
    destruct (Hobj l Hel) as (s & Hs & Hs').
    assert (s' = (reconcile s).1) as -> by congruence.
    destruct (reconcile_settled s) as (_ & Hiff & Hproc & Hid).
    split; [by rewrite Hproc|]. exists s. split; [|done].
    by apply lookup_session_Some.
  - unfold checkHealth. f_equal. rewrite Hsess.
    apply checkHealth_settled. intros l Hl.
    destruct (Hobj l Hl) as (s & Hs & Hs'). exists (reconcile s).1.
    split; [done|]. apply reconcile_settled.
Qed.

(** Witness for X14: the process of "a" has exit code 1 on record. *)
Lemma checkHealth_settles_witness :
  let st := record_exit 0 (Some 1%Z) (one_session true) in
  let st' := fst (checkHealth st) in
  status_of st' "a" = Some offline /\ checkHealth st' = (st', Return tt).
Proof.
  intros st st'.
  destruct (checkHealth_settles st
              (wf_record_exit _ 0 (Some 1%Z)
                 (wf_run true "/home/u" sample_join
                    [CallCreate no_options (sample_env "a" 1000)] init wf_init)))
    as [_ Hagain].
  split; [reflexivity | exact Hagain].
Defined.

(** ** After a kill *)

(** X15. [kill] leaves the listeners in place.  A [kill] that removes a
    session notifies nothing by itself: on Windows, and elsewhere when the
    signal is delivered or the process is gone, the log is as before; when
    the signal is refused, the ['error'] listener of the process notifies
    [error] and [statusChange(…, offline)] during the call.  The object of
    the session stays in the store, and when its process exits afterwards
    the listeners installed at creation still run: [exit] and
    [statusChange(…, offline)] are notified under the identifier they
    captured, for a session that [getSession] no longer knows. *)
Theorem killed_session_still_notifies W st k env l s code :
  lookup_session st k = Some (l, s) ->
  kill_throws W env = false ->
  let st1 := fst (kill W st k env) in
  let st2 := onExit l code st1 in
  (W = true \/ refusal_heard (sigterm env) = false -> emitted st1 = emitted st) /\
  (forall error, W = false -> sigterm env = Refused error ->
     emitted st1 = emitted st ++ [EvError (closure_id (process s)) error;
                                  EvStatusChange (closure_id (process s)) offline]) /\
  getSession st1 k = Return None /\
  emitted st2 = emitted st1 ++ [EvExit (closure_id (process s)) code;
                                EvStatusChange (closure_id (process s)) offline] /\
  getSession st2 k = Return None /\
  (exists s2, heap st2 !! l = Some s2 /\ status s2 = offline /\
              outputBuffer s2 = outputBuffer s).
Proof.
  intros Hlk Hthrows st1 st2. pose proof Hlk as [Hget Hl]%lookup_session_Some.
  assert (Hlt : l < length (heap st)) by (by eapply lookup_lt_Some).
  pose proof (kill_registered W st k env l s Hlk) as Hkill.
  rewrite Hthrows in Hkill.
  destruct (kill_object_keeps W env s) as (_ & _ & _ & Hbuf & Hclosure & _).
  assert (Hs1 : heap st1 !! l = Some (kill_object W env s)).
  { unfold st1. rewrite Hkill. cbn [fst heap]. by apply list_lookup_insert_eq. }
  assert (Hsess : sessions st1 = map_delete k (sessions st)).
  { unfold st1. by rewrite Hkill. }
  assert (Hst2 : st2 = emit (EvStatusChange (closure_id (process s)) offline)
                         (emit (EvExit (closure_id (process s)) code)
                            (store l (set_status offline (kill_object W env s)) st1))).
  { unfold st2, onExit, deref. by rewrite Hs1, Hclosure. }
  split; [intros Hquiet; by apply kill_emitted|].
  split.
  { intros e -> He. unfold st1. rewrite Hkill. cbn [fst emitted].
    unfold kill_log. by rewrite He. }
  unfold getSession.
  split; [by rewrite Hsess, map_get_delete_eq|].
  rewrite Hst2. simpl. rewrite Hsess.
  split; [by rewrite <- (assoc_L (++))|].
  split; [by rewrite map_get_delete_eq|].
  eexists. split; [apply list_lookup_insert_eq; by eapply lookup_lt_Some|].
  by rewrite <- Hbuf.
Qed.

(** Witness for X15: "a" is killed on Windows, then its process exits; and
    the same elsewhere, with a signal that the system refuses. *)
Lemma killed_session_still_notifies_witness :
  (let st1 := fst (kill true (one_session true) "a" (sample_tenv Delivered)) in
   getSession st1 "a" = Return None /\
   emitted (onExit 0 (Some 1%Z) st1)
   = [EvExit "a" (Some 1%Z); EvStatusChange "a" offline]) /\
  (let st1 := fst (kill false (one_session false) "a"
                     (sample_tenv (Refused "EPERM"))) in
   getSession st1 "a" = Return None /\
   emitted st1 = [EvError "a" "EPERM"; EvStatusChange "a" offline] /\
   emitted (onExit 0 (Some 1%Z) st1)
   = [EvError "a" "EPERM"; EvStatusChange "a" offline;
      EvExit "a" (Some 1%Z); EvStatusChange "a" offline]).
Proof.
  split.
  - intros st1.
    destruct (killed_session_still_notifies true (one_session true) "a"
                (sample_tenv Delivered) 0 sample_session (Some 1%Z) eq_refl eq_refl)
      as (_ & _ & Hgone & Hlog & _).
    split; [exact Hgone | exact Hlog].
  - intros st1.
    destruct (killed_session_still_notifies false (one_session false) "a"
                (sample_tenv (Refused "EPERM")) 0 sample_session (Some 1%Z)
                eq_refl eq_refl)
      as (_ & Href & Hgone & Hlog & _).
    split; [exact Hgone|]. split; [exact (Href "EPERM" eq_refl eq_refl)|].
    exact Hlog.
Defined.

(** ** Output notifications *)

(** X16. One [output] notification per chunk.  A run of [data] events on the
    standard output of a session notifies each chunk once, unchanged and in
    the order of arrival, under the identifier captured at creation, however
    the chunks are cut into lines and whether or not the session is still
    registered; [lastActivity] ends as the last reading of the clock. *)
Theorem onStdoutData_notifies_each_chunk l (events : list (string * Z)) : forall st s,
  heap st !! l = Some s -> stdout (process s) = true ->
  let st' := foldl (fun st0 ev => onStdoutData l ev.1 ev.2 st0) st events in
  emitted st' = emitted st ++ (EvOutput (closure_id (process s)) <$> events.*1) /\
  exists s', heap st' !! l = Some s' /\
             lastActivity s' = default (lastActivity s) (last (events.*2)) /\
             status s' = status s.
Proof.
  induction events as [|[text now] events IH]; intros st s Hl Hout; cbv zeta.
  - csimpl. rewrite app_nil_r. split; [done|]. by exists s.
  - cbn [foldl]. rewrite !fmap_cons. cbn [fst snd].
    set (s1 := set_lastActivity now (appendOutput s text)).
    assert (Hstep : onStdoutData l text now st
                    = emit (EvOutput (closure_id (process s)) text) (store l s1 st)).
    { unfold onStdoutData, deref. by rewrite Hl, Hout. }
    rewrite Hstep.
    assert (Hproc : process s1 = process s).
    { unfold s1, appendOutput. by case_decide. }
    destruct (IH (emit (EvOutput (closure_id (process s)) text) (store l s1 st)) s1)
      as (Hlog & s' & Hs' & Hact & Hstatus).
    + simpl. apply list_lookup_insert_eq. by eapply lookup_lt_Some.
    + by rewrite Hproc.
    + rewrite Hlog, Hproc. simpl. rewrite <- (assoc_L (++)).
      split; [reflexivity|].
      exists s'. split; [exact Hs'|]. split.
      * rewrite Hact. change (lastActivity s1) with now.
        rewrite (last_cons now). by destruct (last (events.*2)).
      * rewrite Hstatus. unfold s1. simpl. apply appendOutput_status.
Qed.

(** Witness for X16: two chunks for session "a". *)
Lemma onStdoutData_notifies_each_chunk_witness :
  emitted (foldl (fun st0 ev => onStdoutData 0 ev.1 ev.2 st0) (one_session true)
             [("a" +:+ String LF "b", 1%Z); ("c", 2%Z)])
  = [EvOutput "a" ("a" +:+ String LF "b"); EvOutput "a" "c"].
Proof.
  exact (proj1 (onStdoutData_notifies_each_chunk 0
                  [("a" +:+ String LF "b", 1%Z); ("c", 2%Z)]
                  (one_session true) sample_session eq_refl eq_refl)).
Defined.

(** ** Default names *)

Lemma foldl_sessionCounter {A} (f : State -> A -> State) (xs : list A) :
  (forall st x, sessionCounter (f st x) = sessionCounter st) ->
  forall st, sessionCounter (foldl f st xs) = sessionCounter st.
Proof.
  intros Hf. induction xs as [|x xs IH]; intros st; simpl; [done|].
  by rewrite IH, Hf.
Qed.

Lemma checkSession_sessionCounter st l :
  sessionCounter (checkSession st l) = sessionCounter st.
Proof.
  unfold checkSession. destruct (deref st l) as [s|]; [|done].
  by repeat case_match.
Qed.

(** The counter never goes back. *)
Lemma step_sessionCounter W H J st op :
  sessionCounter st <= sessionCounter (step W H J st op).
Proof.
  destruct op; simpl.
  - destruct (createSession_cases W H J st options env)
      as [[m ->]|(session & -> & _)]; simpl; lia.
  - unfold sendInput. destruct (lookup_session st k) as [[l s]|]; [|done].
    destruct (stdin (process s)); [|done]. by destruct write_throws.
  - unfold interrupt, onError, onErrorUnheard.
    destruct (lookup_session st k) as [[l s]|]; [|done].
    destruct W; [destruct (stdin (process s)); [destruct write_throws|]
                | destruct sigint]; try done; by destruct (deref st l).
  - by rewrite kill_sessionCounter.
  - unfold checkHealth. simpl.
    by rewrite (foldl_sessionCounter checkSession _ checkSession_sessionCounter).
  - unfold updateStatus. destruct (lookup_session st k) as [[l s]|]; [|done].
    by case_decide.
  - unfold linkClaudeSession. by destruct (lookup_session st k) as [[l s]|].
  - destruct (lookup_session st k) as [[l0 existing]|] eqn:Hlk;
      [|by rewrite restart_absent].
    destruct (restart_cases W H J st k tenv cenv l0 existing Hlk)
      as [[m ->]|(session & -> & _)]; simpl; rewrite kill_sessionCounter; lia.
  - unfold cleanup. simpl.
    rewrite (foldl_sessionCounter (fun st0 k => fst (kill W st0 k (tenv k)))); [done|].
    intros st0 k. apply kill_sessionCounter.
  - unfold onStdoutData. destruct (deref st l) as [s|]; [|done].
    by destruct (stdout (process s)).
  - unfold onStderrData. destruct (deref st l) as [s|]; [|done].
    by destruct (stderr (process s)).
  - unfold onExit, record_exit. destruct (deref st l) as [s|] eqn:Hs; [|by rewrite Hs].
    by destruct (deref (store l _ st) l).
  - unfold onError. by destruct (deref st l) as [s|].
  - unfold onError, record_exit. destruct (deref st l) as [s|] eqn:Hs; [|by rewrite Hs].
    by destruct (deref (store l _ st) l).
Qed.

Lemma run_sessionCounter W H J ops : forall st,
  sessionCounter st <= sessionCounter (run W H J st ops).
Proof.
  induction ops as [|op ops IH]; intros st; simpl; [done|].
  etrans; [apply (step_sessionCounter W H J st op)|apply IH].
Qed.

(** X17. Default names never repeat.  Two sessions created without a name
    (or with an empty one) by the same manager, whatever happens in between,
    get different names "Claude N": the counter behind N goes up at every
    creation attempt, failed ones and restarts included, and never down. *)
Theorem default_names_never_repeat W H J st ops opts1 env1 opts2 env2
    st1 l1 s1 st2 l2 s2 :
  or_else (opt_name opts1) EmptyString = EmptyString ->
  or_else (opt_name opts2) EmptyString = EmptyString ->
  createSession W H J st opts1 env1 = (st1, Return l1) ->
  createSession W H J (run W H J st1 ops) opts2 env2 = (st2, Return l2) ->
  heap st1 !! l1 = Some s1 ->
  heap st2 !! l2 = Some s2 ->
  name s1 <> name s2 /\
  name s1 = "Claude " +:+ pretty (S (sessionCounter st)) /\
  exists n, name s2 = "Claude " +:+ pretty n /\ S (sessionCounter st) < n.
Proof.
  intros Hn1 Hn2 Hc1 Hc2 Hs1 Hs2.
  assert (Hdefault : forall opts d, or_else (opt_name opts) EmptyString = EmptyString ->
            or_else (opt_name opts) d = d).
  { intros opts d. destruct (opt_name opts) as [[|c n]|]; simpl; done. }
  destruct (createSession_cases W H J st opts1 env1)
    as [[m Heq]|(session1 & Heq & _ & _ & _ & _ & Hname1 & _)]; [congruence|].
  rewrite Heq in Hc1. injection Hc1 as <- <-.
  simpl in Hs1. rewrite list_lookup_middle in Hs1 by done. injection Hs1 as <-.
  set (st1 := {| heap := heap st ++ [session1] |}) in *.
  destruct (createSession_cases W H J (run W H J st1 ops) opts2 env2)
    as [[m Heq2]|(session2 & Heq2 & _ & _ & _ & _ & Hname2 & _)]; [congruence|].
  rewrite Heq2 in Hc2. injection Hc2 as <- <-.
  simpl in Hs2. rewrite list_lookup_middle in Hs2 by done. injection Hs2 as <-.
  rewrite Hdefault in Hname1, Hname2 by done.
  pose proof (run_sessionCounter W H J ops st1) as Hmono. simpl in Hmono.
  split; [|split; [done|]].
  - rewrite Hname1, Hname2. intros Heq'.
    apply (inj (String.app "Claude ")) in Heq'. apply (inj pretty) in Heq'. lia.
  - eexists. split; [exact Hname2|]. lia.
Qed.

(** Witness for X17: a creation, a failed creation, then another creation:
    "Claude 1" and "Claude 3". *)
Lemma default_names_never_repeat_witness :
  exists st2 s1 s2,
    createSession true "/home/u" sample_join
      (run true "/home/u" sample_join (one_session true)
         [CallCreate no_options (missing_env "x" 2)])
      no_options (sample_env "b" 3) = (st2, Return 1) /\
    heap (one_session true) !! 0 = Some s1 /\ heap st2 !! 1 = Some s2 /\
    name s1 = "Claude 1" /\ name s2 = "Claude 3" /\ name s1 <> name s2.
Proof.
  eexists _, _, _.
  split; [reflexivity|]. split; [reflexivity|]. split; [reflexivity|].
  split; [reflexivity|]. split; [reflexivity|].
  exact (proj1 (default_names_never_repeat true "/home/u" sample_join init
                  [CallCreate no_options (missing_env "x" 2)]
                  no_options (sample_env "a" 1000) no_options (sample_env "b" 3)
                  _ 0 _ _ 1 _ eq_refl eq_refl eq_refl eq_refl eq_refl eq_refl)).
Defined.

(** ** Paths for display *)

Lemma startsWith_app p rest : startsWith (p +:+ rest) p = true.
Proof.
  unfold startsWith. induction p as [|c p IH]; [by destruct rest|].
  change (String c p +:+ rest) with (String c (p +:+ rest)). simpl.
  destruct (ascii_dec c c); [exact IH|done].
Qed.

Lemma slice_string_app p rest : slice_string (String.length p) (p +:+ rest) = rest.
Proof. induction p as [|c p IH]; [by destruct rest|]. exact IH. Qed.

Lemma forward_slashes_no_backslash p :
  BACKSLASH ∉ list_ascii_of_string (forward_slashes p).
Proof.
  induction p as [|c p IH]; simpl; [apply not_elem_of_nil|].
  apply not_elem_of_cons. split; [|done].
  destruct (Ascii.eqb_spec c BACKSLASH) as [->|Hne]; [done|congruence].
Qed.

Lemma forward_slashes_idemp p : forward_slashes (forward_slashes p) = forward_slashes p.
Proof.
  induction p as [|c p IH]; simpl; [done|]. rewrite IH. f_equal.
  destruct (Ascii.eqb_spec c BACKSLASH) as [->|Hne]; [done|].
  by destruct (Ascii.eqb_spec c BACKSLASH).
Qed.

(** X18. [shortenPath] never shows a backslash.  For every home directory
    and every path the result holds no backslash.  A path that begins with
    the home directory becomes "~" followed by what comes after it, with
    forward slashes; this is so by the characters alone, also when the home
    directory ends in the middle of a name.  Any other path keeps its
    length and changes only its backslashes. *)
Theorem shortenPath_normalizes HOME_DIR p :
  (BACKSLASH ∉ list_ascii_of_string (shortenPath HOME_DIR p)) /\
  (forall rest, shortenPath HOME_DIR (HOME_DIR +:+ rest) = "~" +:+ forward_slashes rest) /\
  (startsWith p HOME_DIR = false ->
     shortenPath HOME_DIR p = forward_slashes p /\
     String.length (shortenPath HOME_DIR p) = String.length p).
Proof.
  split; [|split].
  - unfold shortenPath. destruct (startsWith p HOME_DIR).
    + change ("~" +:+ ?x) with (String "~" x). simpl.
      apply not_elem_of_cons. split; [done|]. apply forward_slashes_no_backslash.
    + apply forward_slashes_no_backslash.
  - intros rest. unfold shortenPath.
    by rewrite startsWith_app, slice_string_app.
  - intros Hno. unfold shortenPath. rewrite Hno. split; [done|].
    clear. induction p as [|c p IH]; simpl; [done|]. by rewrite IH.
Qed.

(** X19. [isHomePath] reads a path with either kind of slash.  The answer
    for a path is the answer for the same path written with forward
    slashes.  It is true for every path under "/home/", under "/Users/",
    under "~/" or "~\", and under the "Users" folder of any drive letter,
    "Users" in any case; it is false for the empty path and for "/home"
    and "~" without a slash after them. *)
Theorem isHomePath_slash_insensitive :
  (forall p, isHomePath (forward_slashes p) = isHomePath p) /\
  (forall rest, isHomePath ("/home/" +:+ rest) = true) /\
  (forall rest, isHomePath ("/Users/" +:+ rest) = true) /\
  (forall rest, isHomePath ("~/" +:+ rest) = true) /\
  (forall rest, isHomePath (String "~" (String BACKSLASH rest)) = true) /\
  (forall d u s e r s' rest,
     is_letter d = true ->
     fold_cases (String u (String s (String e (String r (String s' EmptyString)))))
       = "users" ->
     isHomePath (String d (String ":" (String BACKSLASH
                   (String u (String s (String e (String r (String s'
                     (String BACKSLASH rest))))))))) = true) /\
  isHomePath EmptyString = false /\ isHomePath "/home" = false /\
  isHomePath "~" = false.
Proof.
  split.
  { intros p. unfold isHomePath. cbv zeta. by rewrite forward_slashes_idemp. }
  split.
  { intros rest. unfold isHomePath. cbv zeta.
    change (forward_slashes ("/home/" +:+ rest)) with ("/home/" +:+ forward_slashes rest).
    by rewrite startsWith_app. }
  split.
  { intros rest. unfold isHomePath. cbv zeta.
    change (forward_slashes ("/Users/" +:+ rest)) with ("/Users/" +:+ forward_slashes rest).
    by rewrite (startsWith_app "/Users/"). }
  split.
  { intros rest. unfold isHomePath. cbv zeta.
    change (forward_slashes ("~/" +:+ rest)) with ("~/" +:+ forward_slashes rest).
    by rewrite (startsWith_app "~/"). }
  split.
  { intros rest. unfold isHomePath. cbv zeta.
    change (forward_slashes (String "~" (String BACKSLASH rest)))
      with ("~/" +:+ forward_slashes rest).
    by rewrite (startsWith_app "~/"). }
  split; [|by repeat split].
  intros d u s e r s' rest Hd Hfold. unfold isHomePath. cbv zeta.
  set (n := forward_slashes _).
  assert (Hn : exists rest', n = String (if Ascii.eqb d BACKSLASH then SLASH else d)
             (String ":" (String SLASH
               (String (if Ascii.eqb u BACKSLASH then SLASH else u)
               (String (if Ascii.eqb s BACKSLASH then SLASH else s)
               (String (if Ascii.eqb e BACKSLASH then SLASH else e)
               (String (if Ascii.eqb r BACKSLASH then SLASH else r)
               (String (if Ascii.eqb s' BACKSLASH then SLASH else s')
               (String SLASH rest'))))))))) by (eexists; reflexivity).
  destruct Hn as [rest' Hn].
  assert (Hd' : Ascii.eqb d BACKSLASH = false).
  { destruct (Ascii.eqb_spec d BACKSLASH) as [->|]; [done|done]. }
  assert (Hchars : Ascii.eqb u BACKSLASH = false /\ Ascii.eqb s BACKSLASH = false /\
                   Ascii.eqb e BACKSLASH = false /\ Ascii.eqb r BACKSLASH = false /\
                   Ascii.eqb s' BACKSLASH = false).
  { injection Hfold as Hu Hs He Hr Hs'.
    repeat split; apply Ascii.eqb_neq; intros ->; done. }
  destruct Hchars as (Hu & Hs & He & Hr & Hs').
  rewrite Hd', Hu, Hs, He, Hr, Hs' in Hn.
  assert (Hdrive : drive_users n = true).
  { rewrite Hn. unfold drive_users. rewrite Hd. cbn [andb fold_cases].
    injection Hfold as -> -> -> -> ->.
    exact (startsWith_app ":/users/" (fold_cases rest')). }
  rewrite Hdrive. by repeat case_match.
Qed.

(** ** Interrupt and health *)

(** What [checkHealth] does for one registered session. *)
Lemma checkHealth_session st k l s :
  wf st -> map_get k (sessions st) = Some l -> heap st !! l = Some s ->
  exists new,
    heap (fst (checkHealth st)) !! l = Some (reconcile s).1 /\
    sessions (fst (checkHealth st)) = sessions st /\
    emitted (fst (checkHealth st)) = emitted st ++ new /\
    notifications_for k new = (reconcile s).2.
Proof.
  intros Hwf Hget Hl. pose proof Hwf as [Hnd Hreg].
  assert (Hin : forall l, l ∈ getSessions st -> is_Some (heap st !! l)).
  { intros l' Hl'. unfold getSessions, map_values in Hl'.
    apply list_elem_of_fmap in Hl' as ([k' l''] & -> & Hl').
    apply elem_of_map_get in Hl'; [|done].
    destruct (Hreg _ _ Hl') as (s' & Hs' & _). by exists s'. }
  destruct (checkHealth_loop (getSessions st) st (wf_values_NoDup st Hwf) Hin)
    as (Hsess & Hheap & Hlog).
  assert (Hel : l ∈ getSessions st).
  { unfold getSessions, map_values. apply list_elem_of_fmap.
    exists (k, l). split; [done|]. by apply map_get_elem_of. }
  destruct (Hreg _ _ Hget) as (s0 & Hs0 & Hid).
  assert (s0 = s) as -> by congruence.
  eexists. split; [|split; [exact Hsess|split; [exact Hlog|]]].
  { exact (eq_trans (Hheap l s Hl) (f_equal Some (decide_True _ _ Hel))). }
  unfold notifications_for.
  rewrite (filter_concat_unique _ _ l); [| by apply wf_values_NoDup | done |].
  - rewrite Hl. simpl. pose proof (reconcile_notifications s k) as Hrn.
    unfold notifications_for in Hrn. rewrite Hrn. by rewrite decide_True.
  - intros l' Hl' Hne. destruct (Hin l' Hl') as [s' Hs']. rewrite Hs'. simpl.
    pose proof (reconcile_notifications s' k) as Hrn.
    unfold notifications_for in Hrn. rewrite Hrn.
    rewrite decide_False; [done|]. intros Hk. apply Hne.
    unfold getSessions, map_values in Hl'.
    apply list_elem_of_fmap in Hl' as ([k' l''] & -> & Hl').
    apply elem_of_map_get in Hl'; [|done].
    destruct (Hreg _ _ Hl') as (s2 & Hs2 & Hid2). simpl in *. congruence.
Qed.

(** X20. An interrupt can take a session offline.  Elsewhere than on
    Windows [interrupt] sends SIGINT with [process.kill], and a delivered
    signal sets the [killed] flag of the process handle.  [checkHealth]
    reads that flag as "not alive": the next reconciliation sets the
    interrupted session offline and notifies [statusChange(id, offline)],
    although no exit code is on record and no [exit] was notified.  On
    Windows, where the interrupt is a character written to the input
    stream, the session stays as it is. *)
Theorem interrupt_then_checkHealth st k now write_throws l s :
  wf st ->
  lookup_session st k = Some (l, s) ->
  status s <> offline -> isAlive (process s) = true ->
  (let st1 := fst (interrupt false st k now write_throws Delivered) in
   let st2 := fst (checkHealth st1) in
   status_of st2 k = Some offline /\
   (exists s2, lookup_session st2 k = Some (l, s2) /\
               exitCode (process s2) = None) /\
   exists new, emitted st2 = emitted st ++ new /\
               notifications_for k new = [EvStatusChange k offline]) /\
  (let st1 := fst (interrupt true st k now write_throws Delivered) in
   let st2 := fst (checkHealth st1) in
   status_of st2 k = Some (status s) /\
   exists new, emitted st2 = emitted st ++ new /\ notifications_for k new = []).
Proof.
  intros Hwf Hlk Hstatus Halive.
  pose proof Hlk as [Hget Hl]%lookup_session_Some.
  assert (Hlt : l < length (heap st)) by (by eapply lookup_lt_Some).
  pose proof Hwf as [Hnd Hreg].
  destruct (Hreg _ _ Hget) as (s0 & Hs0 & Hid).
  assert (s0 = s) as -> by congruence.
  assert (Hexit : exitCode (process s) = None).
  { unfold isAlive in Halive. apply andb_true_iff in Halive as [_ Hc].
    by apply bool_decide_eq_true in Hc. }
  assert (Hgen : forall st1 s1,
            wf st1 -> sessions st1 = sessions st -> emitted st1 = emitted st ->
            heap st1 !! l = Some s1 -> id s1 = k ->
            exists new,
              lookup_session (fst (checkHealth st1)) k = Some (l, (reconcile s1).1) /\
              emitted (fst (checkHealth st1)) = emitted st ++ new /\
              notifications_for k new = (reconcile s1).2).
  { intros st1 s1 Hwf1 Hsess1 Hlog1 Hs1 Hid1.
    destruct (checkHealth_session st1 k l s1 Hwf1) as (new & Hh & Hs & Hlog & Hn);
      [by rewrite Hsess1 | done |].
    exists new. split; [|split; [by rewrite Hlog, Hlog1 | done]].
    apply lookup_session_Some. by rewrite Hs, Hsess1. }
  split; cbv zeta.
  - set (s1 := set_process (set_killed true (process s)) s).
    assert (Hst1 : fst (interrupt false st k now write_throws Delivered)
                   = store l s1 st).
    { unfold interrupt. by rewrite Hlk. }
    rewrite Hst1.
    destruct (Hgen (store l s1 st) s1) as (new & Hlk2 & Hlog2 & Hnote2);
      [by apply (wf_store st l s s1 Hwf Hl) | done | done
      | by apply list_lookup_insert_eq | done |].
    assert (Hrec : reconcile s1 = (set_status offline s1, [EvStatusChange k offline])).
    { unfold reconcile, isAlive. simpl.
      rewrite (bool_decide_eq_true_2 _ Hstatus). by rewrite Hid. }
    rewrite Hrec in Hlk2, Hnote2.
    split; [unfold status_of; by rewrite Hlk2|].
    split; [eexists; split; [exact Hlk2|exact Hexit]|].
    by exists new.
  - assert (Hst1 : exists s1,
              fst (interrupt true st k now write_throws Delivered) = store l s1 st
              /\ reconcile s1 = (s1, []) /\ status s1 = status s /\ id s1 = k
              \/ fst (interrupt true st k now write_throws Delivered) = st /\ s1 = s).
    { assert (Hfix : forall s1, isAlive (process s1) = true -> status s1 = status s ->
                reconcile s1 = (s1, [])).
      { intros s1 Ha Hs. unfold reconcile. rewrite Ha, Hs. simpl.
        by rewrite (bool_decide_eq_false_2 _ Hstatus). }
      unfold interrupt. rewrite Hlk.
      destruct (stdin (process s)) as [written|] eqn:Hin; [destruct write_throws|].
      - exists s. by right.
      - eexists. left. split; [reflexivity|]. split; [|done]. by apply Hfix.
      - eexists. left. split; [reflexivity|]. split; [|done]. by apply Hfix. }
    destruct Hst1 as (s1 & [(Hst1 & Hrec & Hst & Hid1)|[Hst1 ->]]); rewrite Hst1.
    + destruct (Hgen (store l s1 st) s1) as (new & Hlk2 & Hlog2 & Hnote2);
        [apply (wf_store st l s s1 Hwf Hl); congruence | done | done
        | by apply list_lookup_insert_eq | done |].
      rewrite Hrec in Hlk2, Hnote2.
      split; [unfold status_of; rewrite Hlk2; simpl; by rewrite Hst|]. by exists new.
    + destruct (Hgen st s) as (new & Hlk2 & Hlog2 & Hnote2);
        [done | done | done | done | done |].
      assert (Hrec : reconcile s = (s, [])).
      { unfold reconcile. rewrite Halive. simpl.
        by rewrite (bool_decide_eq_false_2 _ Hstatus). }
      rewrite Hrec in Hlk2, Hnote2.
      split; [unfold status_of; by rewrite Hlk2|]. by exists new.
Qed.

(** Witness for X20: the idle session "a", interrupted and reconciled. *)
Lemma interrupt_then_checkHealth_witness :
  let st := one_session false in
  let st2 := fst (checkHealth (fst (interrupt false st "a" 5 false Delivered))) in
  status_of st "a" = Some idle /\
  status_of st2 "a" = Some offline /\
  exists new, emitted st2 = emitted st ++ new /\
              notifications_for "a" new = [EvStatusChange "a" offline].
Proof.
  intros st st2. split; [reflexivity|].
  destruct (interrupt_then_checkHealth st "a" 5 false 0 sample_session
              (wf_run false "/home/u" sample_join
                 [CallCreate no_options (sample_env "a" 1000)] init wf_init)
              eq_refl) as [(Hstatus & _ & Hnote) _]; [discriminate|reflexivity|].
  split; [exact Hstatus | exact Hnote].
Defined.
